(** * dbr: the case-update builder and the execution engine

    A shallow embedding of [CaseUpdateStmt] (Build, Values, SetRunLen, Exec)
    and of the engine functions [exec], [query], [queryCount], [queryRows]
    and [getSQL] of package dbr, with the properties of its specification
    that concern them.

    Go values are modelled as follows.  An [int] is a [Z] (no arithmetic is
    done on [RunLen], so no wrap-around arises); a [string] is a
    [String.string], byte by byte; a [[]byte] is a [list Byte.byte]; a slice
    is a [list]; an [error] is [option error] where [None] is [nil].  A
    run-time panic is an outcome of its own, [Panic]. *)

From Stdlib Require Import ZArith List String Ascii Bool Lia Arith DecimalString.
Import ListNotations.
Local Open Scope list_scope.
Local Open Scope string_scope.

Set Implicit Arguments.

(* ------------------------------------------------------------------ *)
(** * Go run-time values *)

(** The dynamic values ([interface{}]) that flow through the builder: bound
    values of a statement and primary-key values. *)
Inductive iface : Type :=
| VNil
| VBool (b : bool)
| VInt (z : Z)
| VStr (s : string).

(** [fmt.Sprint] on one operand. *)
Definition Sprint (v : iface) : string :=
  match v with
  | VNil => "<nil>"
  | VBool true => "true"
  | VBool false => "false"
  | VInt z => NilZero.string_of_int (Z.to_int z)
  | VStr s => s
  end.

(** The errors of the package that the modelled code names, and the errors
    made by [errors.New] or handed back by a collaborator (driver, cache,
    gob), which carry their message. *)
Inductive error : Type :=
| ErrTableNotSpecified
| ErrColumnNotSpecified
| ErrInvalidPointer
| errors_New (msg : string).

(** Run-time panics of the Go runtime that the modelled code can raise. *)
Inductive panic : Type :=
| IndexOutOfRange (i len : Z)      (* index out of range [i] with length len *)
| SliceBoundsOutOfRange (lo len : Z) (* slice bounds out of range [lo:len] *)
| NilPointerDereference.

Inductive result (A : Type) : Type :=
| Ret (a : A)
| Panic (p : panic).
Arguments Panic {A} p.

Definition is_panic {A} (r : result A) : bool :=
  match r with Panic _ => true | Ret _ => false end.

(** [s[i]] on a string: a byte, or a panic when [i] is out of range. *)
Definition str_index (s : string) (i : Z) : result ascii :=
  if ((i <? 0) || (Z.of_nat (String.length s) <=? i))%Z
  then Panic (IndexOutOfRange i (Z.of_nat (String.length s)))
  else match String.get (Z.to_nat i) s with
       | Some c => Ret c
       | None => Panic (IndexOutOfRange i (Z.of_nat (String.length s)))
       end.

(** [s[lo:hi]] on a string. *)
Definition str_slice (s : string) (lo hi : Z) : result string :=
  if ((lo <? 0) || (hi <? lo) || (Z.of_nat (String.length s) <? hi))%Z
  then Panic (SliceBoundsOutOfRange lo hi)
  else Ret (String.substring (Z.to_nat lo) (Z.to_nat (hi - lo)) s).

(** [l[i]] on a slice. *)
Definition slice_index {A} (l : list A) (i : nat) : result A :=
  match nth_error l i with
  | Some a => Ret a
  | None => Panic (IndexOutOfRange (Z.of_nat i) (Z.of_nat (List.length l)))
  end.

(** [l[lo:]] on a slice. *)
Definition slice_from {A} (l : list A) (lo : Z) : result (list A) :=
  if ((lo <? 0) || (Z.of_nat (List.length l) <? lo))%Z
  then Panic (SliceBoundsOutOfRange lo (Z.of_nat (List.length l)))
  else Ret (skipn (Z.to_nat lo) l).

(** [string(c)] for a byte [c]: the one-byte string for an ASCII byte.  The
    source compares it with ["+"] and ["-"] only, and a byte above 127 turns
    into a two-byte string, which equals neither. *)
Definition string_of_byte (c : ascii) : string := String c EmptyString.

(* ------------------------------------------------------------------ *)
(** * Dialect and Buffer *)

Record Dialect : Type := { QuoteIdent : string -> string }.

(** The buffer a statement is built into: the SQL text written so far and
    the values bound so far, in order. *)
Record Buffer : Type := { buf_str : string; buf_val : list iface }.

Definition NewBuffer : Buffer := {| buf_str := ""; buf_val := [] |}.

Definition WriteString (buf : Buffer) (s : string) : Buffer :=
  {| buf_str := buf_str buf ++ s; buf_val := buf_val buf |}.

Definition WriteValue (buf : Buffer) (v : iface) : Buffer :=
  {| buf_str := buf_str buf; buf_val := (buf_val buf ++ [v])%list |}.

(* ------------------------------------------------------------------ *)
(** * CaseUpdateStmt *)

Record CaseUpdateValue : Type := { Key : string; Val : list iface }.

(** An embedded interface value of a statement: nil, or the value a session
    or a transaction put there.  The runner, the receiver and the dialect of
    the session are the environment of the engine below, so a field that is
    set stands for that environment. *)
Inductive embedded : Type :=
| NilInterface
| FromSession.

(** The statement, field by field: the three embedded interfaces [runner],
    [EventReceiver] and [Dialect] first. *)
Record CaseUpdateStmt : Type := {
  b_runner : embedded;
  b_EventReceiver : embedded;
  b_Dialect : embedded;
  Table : string;
  PKey : string;
  RunLen : Z;
  Column : list string;
  Value : list CaseUpdateValue;
  ReturnColumn : list string
}.

Definition set_RunLen (b : CaseUpdateStmt) (n : Z) : CaseUpdateStmt :=
  {| b_runner := b_runner b; b_EventReceiver := b_EventReceiver b;
     b_Dialect := b_Dialect b;
     Table := Table b; PKey := PKey b; RunLen := n; Column := Column b;
     Value := Value b; ReturnColumn := ReturnColumn b |}.

Definition set_Value (b : CaseUpdateStmt) (v : list CaseUpdateValue) : CaseUpdateStmt :=
  {| b_runner := b_runner b; b_EventReceiver := b_EventReceiver b;
     b_Dialect := b_Dialect b;
     Table := Table b; PKey := PKey b; RunLen := RunLen b; Column := Column b;
     Value := v; ReturnColumn := ReturnColumn b |}.

(** The package-level [CaseUpdate(table)]: every other field has its zero
    value, so the three embedded interfaces are nil. *)
Definition CaseUpdate (table : string) : CaseUpdateStmt :=
  {| b_runner := NilInterface; b_EventReceiver := NilInterface;
     b_Dialect := NilInterface;
     Table := table; PKey := ""; RunLen := 0%Z; Column := [];
     Value := []; ReturnColumn := [] |}.

(** [(sess *Session) CaseUpdate(table)]: the package-level statement with
    the runner, the receiver and the dialect of the session. *)
Definition Session_CaseUpdate (table : string) : CaseUpdateStmt :=
  let b := CaseUpdate table in
  {| b_runner := FromSession; b_EventReceiver := FromSession;
     b_Dialect := FromSession;
     Table := Table b; PKey := PKey b; RunLen := RunLen b; Column := Column b;
     Value := Value b; ReturnColumn := ReturnColumn b |}.

(** [(tx *Tx) CaseUpdate(table)]: the same, with those of the
    transaction. *)
Definition Tx_CaseUpdate (table : string) : CaseUpdateStmt :=
  Session_CaseUpdate table.

(** The statements that hold a runner, a receiver and a dialect, as the
    ones [Session.CaseUpdate] and [Tx.CaseUpdate] make. *)
Definition session_bound (b : CaseUpdateStmt) : Prop :=
  b_runner b = FromSession /\ b_EventReceiver b = FromSession
  /\ b_Dialect b = FromSession.

Definition Columns (b : CaseUpdateStmt) (pkey : string) (column : list string)
  : CaseUpdateStmt :=
  {| b_runner := b_runner b; b_EventReceiver := b_EventReceiver b;
     b_Dialect := b_Dialect b;
     Table := Table b; PKey := pkey; RunLen := RunLen b; Column := column;
     Value := Value b; ReturnColumn := ReturnColumn b |}.

(** [Values]: the loop overwrites [Val] of every accumulated entry with the
    same key, and then the new entry is appended whatever the loop found. *)
Definition Values (b : CaseUpdateStmt) (PKValue : iface) (value : list iface)
  : CaseUpdateStmt :=
  let pk := Sprint PKValue in
  let updated :=
    map (fun v => if String.eqb (Key v) pk
                  then {| Key := Key v; Val := value |} else v) (Value b) in
  set_Value b (updated ++ [{| Key := Sprint PKValue; Val := value |}])%list.

Definition SetRunLen (b : CaseUpdateStmt) (i : Z) : CaseUpdateStmt :=
  set_RunLen b i.

Definition Returning (b : CaseUpdateStmt) (column : list string) : CaseUpdateStmt :=
  {| b_runner := b_runner b; b_EventReceiver := b_EventReceiver b;
     b_Dialect := b_Dialect b;
     Table := Table b; PKey := PKey b; RunLen := RunLen b; Column := Column b;
     Value := Value b; ReturnColumn := column |}.

(** The test of both row loops of Build: [x >= b.RunLen && b.RunLen > 0]. *)
Definition window_break (runLen : Z) (x : nat) : bool :=
  ((runLen <=? Z.of_nat x) && (0 <? runLen))%Z.

(** The inner loop of Build over [b.Value] for column [i], from row [x]. *)
Fixpoint whenLoop (runLen : Z) (i : nat) (x : nat) (rows : list CaseUpdateValue)
         (buf : Buffer) : result Buffer :=
  match rows with
  | [] => Ret buf
  | v :: rest =>
      if window_break runLen x then Ret buf
      else
        let buf := WriteString buf " WHEN ? THEN ? " in
        let buf := WriteValue buf (VStr (Key v)) in
        match slice_index (Val v) i with
        | Panic p => Panic p
        | Ret a => whenLoop runLen i (S x) rest (WriteValue buf a)
        end
  end.

(** The text written for one column before its CASE: either the plain
    assignment or, for a name ending in [+] or [-], the delta form. *)
Definition columnHead (d : Dialect) (col : string) (buf : Buffer) : result Buffer :=
  match str_index col (Z.of_nat (String.length col) - 1) with
  | Panic p => Panic p
  | Ret c =>
      if (string_of_byte c =? "+") || (string_of_byte c =? "-") then
        match str_slice col 0 (Z.of_nat (String.length col) - 1) with
        | Panic p => Panic p
        | Ret _col =>
            let buf := WriteString buf (QuoteIdent d _col) in
            let buf := WriteString buf " = " in
            let buf := WriteString buf (QuoteIdent d _col) in
            Ret (WriteString buf (" " ++ string_of_byte c ++ " "))
        end
      else
        let buf := WriteString buf (QuoteIdent d col) in
        Ret (WriteString buf " = ")
  end.

(** The loop of Build over [b.Column], from column [i]. *)
Fixpoint columnLoop (d : Dialect) (b : CaseUpdateStmt) (i : nat)
         (cols : list string) (buf : Buffer) : result Buffer :=
  match cols with
  | [] => Ret buf
  | col :: rest =>
      let buf := if (0 <? i)%nat then WriteString buf ", " else buf in
      match columnHead d col buf with
      | Panic p => Panic p
      | Ret buf =>
          let buf := WriteString buf " CASE " in
          let buf := WriteString buf (QuoteIdent d (PKey b)) in
          match whenLoop (RunLen b) i 0 (Value b) buf with
          | Panic p => Panic p
          | Ret buf => columnLoop d b (S i) rest (WriteString buf " END ")
          end
      end
  end.

(** The loop that collects [WhereKey], from row [x]. *)
Fixpoint whereKeyLoop (runLen : Z) (x : nat) (rows : list CaseUpdateValue)
         (WhereKey : list string) : list string :=
  match rows with
  | [] => WhereKey
  | v :: rest =>
      if window_break runLen x then WhereKey
      else whereKeyLoop runLen (S x) rest (WhereKey ++ [Key v])%list
  end.

(** The loop that writes the keys of the IN list, with its counter [i]. *)
Fixpoint inListLoop (i : nat) (keys : list string) (buf : Buffer) : Buffer :=
  match keys with
  | [] => buf
  | key :: rest =>
      let buf := if (0 <? i)%nat then WriteString buf ", " else buf in
      let buf := WriteString buf " ? " in
      let buf := WriteValue buf (VStr key) in
      inListLoop (S i) rest buf
  end.

(** [Build]: the statement after the call ([RunLen] defaulted, the window
    removed from [Value]), the buffer, and the error returned. *)
Definition Build (d : Dialect) (b : CaseUpdateStmt) (buf : Buffer)
  : result (CaseUpdateStmt * Buffer * option error) :=
  let b := if (RunLen b =? 0)%Z then set_RunLen b 1000%Z else b in
  if Table b =? "" then Ret (b, buf, Some ErrTableNotSpecified)
  else if (List.length (Column b) =? 0)%nat then Ret (b, buf, Some ErrColumnNotSpecified)
  else
    let WhereKey : list string := [] in
    let buf := WriteString buf "UPDATE " in
    let buf := WriteString buf (QuoteIdent d (Table b)) in
    let buf := WriteString buf " SET " in
    match columnLoop d b 0 (Column b) buf with
    | Panic p => Panic p
    | Ret buf =>
        let WhereKey := whereKeyLoop (RunLen b) 0 (Value b) WhereKey in
        let consumed :=
          if ((RunLen b <? Z.of_nat (List.length (Value b))) && negb (RunLen b =? 0))%Z
          then slice_from (Value b) (RunLen b)
          else Ret [] in
        match consumed with
        | Panic p => Panic p
        | Ret rest =>
            let b := set_Value b rest in
            let buf := WriteString buf " WHERE " in
            let buf := WriteString buf (QuoteIdent d (PKey b)) in
            let buf := WriteString buf " IN (" in
            let buf := inListLoop 0 WhereKey buf in
            let buf := WriteString buf " )" in
            Ret (b, buf, None)
        end
    end.

(** A dialect for the examples: identifiers between backquotes. *)
Definition backquote : Dialect := {| QuoteIdent := fun s => "`" ++ s ++ "`" |}.

(* ------------------------------------------------------------------ *)
(** * The execution engine *)

(** The per-call parameters ([Custom]).  Its [cache] field is the cache of
    the environment below. *)
Record Custom : Type := {
  isCount : bool;
  isCache : bool;
  cacheKey : string;
  cacheExpire : Z
}.

(** The zero value, used when no [Custom] is passed. *)
Definition zeroCustom : Custom :=
  {| isCount := false; isCache := false; cacheKey := ""; cacheExpire := 0%Z |}.

(** [if len(customs) > 0 { custom = customs[0] }]. *)
Definition firstCustom (customs : list Custom) : Custom :=
  match customs with
  | c :: _ => c
  | [] => zeroCustom
  end.

(** What an interpolator holds after [encodePlaceholder]: [i.String()],
    [i.Value()] and the error returned. *)
Record Interp : Type := {
  isql : string;
  ivalue : list iface;
  ierr : option error
}.

(** [fmt.Sprintf("SELECT COUNT(*) FROM (%s) AS count", query)]. *)
Definition countWrap (query : string) : string :=
  "SELECT COUNT(*) FROM (" ++ query ++ ") AS count".

(** Everything the engine does to the outside, in order.  The [kvs] handed
    to the receiver are kept as their ["sql"] entry; the elapsed time is not
    modelled. *)
Inductive Action : Type :=
| DbExec (sql : string) (args : list iface)
| DbQuery (sql : string) (args : list iface)
| CacheGet (key : string)
| CacheSet (key : string) (value : list Byte.byte) (seconds : Z)
| CacheDel (key : string)
| LogErr (eventName : string) (err : error) (sql : string)
| LogTiming (eventName : string) (sql : string).

(** The [runner] interface: the driver, as a state machine. *)
Class Runner (DbState Result Rows : Type) : Type := {
  ExecContext : DbState -> string -> list iface -> DbState * Result * option error;
  QueryContext : DbState -> string -> list iface -> DbState * Rows * option error
}.

(** The [customCache] interface, as a state machine. *)
Class CustomCache (CacheState : Type) : Type := {
  cache_Set : CacheState -> string -> list Byte.byte -> Z -> CacheState * option error;
  cache_GetBytes : CacheState -> string ->
                   CacheState * (list Byte.byte * bool * option error);
  cache_Del : CacheState -> string -> CacheState * option error
}.

(** The [EventReceiver] interface: what [EventErrKv] returns.  That it was
    called is recorded as a [LogErr] action. *)
Class EventReceiver : Type := {
  EventErrKv : string -> error -> string -> option error
}.

(** [NullEventReceiver.EventErrKv] returns the error it is given. *)
Definition NullEventReceiver : EventReceiver :=
  {| EventErrKv := fun _ err _ => Some err |}.

(** The receivers that hand back the error they are given, as
    [NullEventReceiver] does. *)
Definition returns_err (log : EventReceiver) : Prop :=
  forall eventName err sql, @EventErrKv log eventName err sql = Some err.

(** The destination of a query, with what the engine asks of it: gob
    encoding and decoding, reflection, scanning of rows.  A failed decode may
    leave the destination changed. *)
Class Destination (Dest Rows : Type) : Type := {
  gobDecodeInt : list Byte.byte -> Z + error;
  gobEncodeInt : Z -> list Byte.byte * option error;
  gobDecodeDest : list Byte.byte -> Dest -> Dest * option error;
  gobEncodeDest : Dest -> list Byte.byte * option error;
  (* [v.Kind() == reflect.Ptr && !v.IsNil()] *)
  destIsPtr : Dest -> bool;
  (* [v.Elem().Len()] when [v.Elem().Kind() == reflect.Slice] *)
  destSliceLen : Dest -> option Z;
  Load : Rows -> Dest -> Dest * Z * option error;
  rowsNext : Rows -> bool;
  (* the integer [rows.Scan(&count)] leaves in [count] *)
  rowsScanInt : Rows -> Z
}.

(** Modelled from the spec: the interpolator ([encodePlaceholder], [String],
    [Value]) is not among the sources.  The spec has it render a Buildable
    into one SQL text with its ordered bound values, or fail; a builder may
    change when it is built (the case-update builder does) and may panic. *)
Class Builder (B : Type) : Type := {
  encodePlaceholder : B -> result (B * Interp)
}.

(** Computations of the engine: they read and change a world [W], and
    return or panic. *)
Definition M (W A : Type) : Type := W -> result (A * W).

Definition ret {W A} (a : A) : M W A := fun w => Ret (a, w).

Definition bind {W A C} (m : M W A) (k : A -> M W C) : M W C :=
  fun w => match m w with
           | Panic p => Panic p
           | Ret (a, w') => k a w'
           end.

Notation "x <- c ;; k" := (bind c (fun x => k))
  (at level 61, c at next level, right associativity).
Notation "' pat <- c ;; k" := (bind c (fun x => match x with pat => k end))
  (at level 61, pat pattern, c at next level, right associativity).
Notation "c ;;; k" := (bind c (fun _ => k))
  (at level 61, right associativity).

Record World (DbState CacheState Dest : Type) : Type := {
  w_db : DbState;
  w_cache : CacheState;
  w_dest : Dest;
  w_trace : list Action
}.

Section Engine.

Context {DbState Result Rows CacheState Dest B : Type}.
Context {runner : Runner DbState Result Rows}.
Context {cache : CustomCache CacheState}.
Context {log : EventReceiver}.
Context {dst : Destination Dest Rows}.
Context {bld : Builder B}.

Local Abbreviation World := (World DbState CacheState Dest).
Local Abbreviation M := (M World).

Definition emit (a : Action) : M unit :=
  fun w => Ret (tt, {| w_db := w_db w; w_cache := w_cache w; w_dest := w_dest w;
                       w_trace := (w_trace w ++ [a])%list |}).

Definition log_EventErrKv (eventName : string) (err : error) (sql : string)
  : M (option error) :=
  emit (LogErr eventName err sql) ;;; ret (EventErrKv eventName err sql).

Definition log_TimingKv (eventName : string) (sql : string) : M unit :=
  emit (LogTiming eventName sql).

Definition runner_ExecContext (sql : string) (args : list iface)
  : M (Result * option error) :=
  fun w =>
    let '(db', r, e) := ExecContext (w_db w) sql args in
    Ret ((r, e), {| w_db := db'; w_cache := w_cache w; w_dest := w_dest w;
                    w_trace := (w_trace w ++ [DbExec sql args])%list |}).

Definition runner_QueryContext (sql : string) (args : list iface)
  : M (Rows * option error) :=
  fun w =>
    let '(db', r, e) := QueryContext (w_db w) sql args in
    Ret ((r, e), {| w_db := db'; w_cache := w_cache w; w_dest := w_dest w;
                    w_trace := (w_trace w ++ [DbQuery sql args])%list |}).

Definition custom_cache_GetBytes (key : string)
  : M (list Byte.byte * bool * option error) :=
  fun w =>
    let '(c', r) := cache_GetBytes (w_cache w) key in
    Ret (r, {| w_db := w_db w; w_cache := c'; w_dest := w_dest w;
               w_trace := (w_trace w ++ [CacheGet key])%list |}).

Definition custom_cache_Set (key : string) (value : list Byte.byte) (seconds : Z)
  : M (option error) :=
  fun w =>
    let '(c', e) := cache_Set (w_cache w) key value seconds in
    Ret (e, {| w_db := w_db w; w_cache := c'; w_dest := w_dest w;
               w_trace := (w_trace w ++ [CacheSet key value seconds])%list |}).

Definition custom_cache_Del (key : string) : M (option error) :=
  fun w =>
    let '(c', e) := cache_Del (w_cache w) key in
    Ret (e, {| w_db := w_db w; w_cache := c'; w_dest := w_dest w;
               w_trace := (w_trace w ++ [CacheDel key])%list |}).

(** [decoder.Decode(dest)] and [encoder.Encode(dest)] on the destination of
    the call, and [Load(rows, dest)]. *)
Definition decode_dest (reply : list Byte.byte) : M (option error) :=
  fun w =>
    let '(d', e) := gobDecodeDest reply (w_dest w) in
    Ret (e, {| w_db := w_db w; w_cache := w_cache w; w_dest := d';
               w_trace := w_trace w |}).

Definition get_dest : M Dest := fun w => Ret (w_dest w, w).

Definition load_dest (rows : Rows) : M (Z * option error) :=
  fun w =>
    let '(d', n, e) := Load rows (w_dest w) in
    Ret ((n, e), {| w_db := w_db w; w_cache := w_cache w; w_dest := d';
                    w_trace := w_trace w |}).

(** The interpolation that opens [exec], [queryRows], [queryCount] and
    [getSQL]. *)
Definition interpolate_builder (builder : B) : M (B * Interp) :=
  fun w => match encodePlaceholder builder with
           | Panic p => Panic p
           | Ret r => Ret (r, w)
           end.

(** [exec]: the builder after interpolation, the driver's result and the
    error returned.  The deadline of the context and the optional tracing
    spans do not change what is returned and are left out.  The runner and
    the receiver are those of the environment, which are not nil; the calls
    with the interfaces a statement holds, which can be nil, are [exec_stmt]
    and [query_stmt] below. *)
Definition exec (builder : B) (customs : list Custom)
  : M (B * option Result * option error) :=
  '(builder, i) <- interpolate_builder builder ;;
  let query := isql i in
  let value := ivalue i in
  match ierr i with
  | Some err =>
      e <- log_EventErrKv "dbr.exec.interpolate" err query ;;
      ret (builder, None, e)
  | None =>
      '(result, err) <- runner_ExecContext query value ;;
      match err with
      | Some err =>
          e <- log_EventErrKv "dbr.exec.exec" err query ;;
          ret (builder, Some result, e)
      | None =>
          let custom := firstCustom customs in
          (if isCache custom then
             let dbcacheDataKey := cacheKey custom in
             if negb (dbcacheDataKey =? "") then
               err <- custom_cache_Del dbcacheDataKey ;;
               match err with
               | Some err =>
                   log_EventErrKv "dbr.exec.cache.del" err query ;;; ret tt
               | None => ret tt
               end
             else ret tt
           else ret tt) ;;;
          log_TimingKv "dbr.exec" query ;;;
          ret (builder, Some result, None)
      end
  end.

Definition queryRows (builder : B)
  : M (B * string * option Rows * option error) :=
  '(builder, i) <- interpolate_builder builder ;;
  let query := isql i in
  let value := ivalue i in
  match ierr i with
  | Some err =>
      e <- log_EventErrKv "dbr.select.interpolate" err query ;;
      ret (builder, query, None, e)
  | None =>
      '(rows, err) <- runner_QueryContext query value ;;
      match err with
      | Some err =>
          e <- log_EventErrKv "dbr.select.load.query" err query ;;
          ret (builder, query, None, e)
      | None => ret (builder, query, Some rows, None)
      end
  end.

Definition queryCount (builder : B) : M (B * string * Z * option error) :=
  '(builder, i) <- interpolate_builder builder ;;
  let value := ivalue i in
  let query := countWrap (isql i) in
  match ierr i with
  | Some err =>
      e <- log_EventErrKv "dbr.select.interpolate" err query ;;
      ret (builder, query, 0%Z, e)
  | None =>
      '(rows, err) <- runner_QueryContext query value ;;
      match err with
      | Some err =>
          e <- log_EventErrKv "dbr.select.load.query" err query ;;
          ret (builder, query, 0%Z, e)
      | None =>
          let count := if rowsNext rows then rowsScanInt rows else 0%Z in
          ret (builder, query, count, None)
      end
  end.

Definition getSQL (builder : B) : M (B * string * option error) :=
  '(builder, i) <- interpolate_builder builder ;;
  ret (builder, isql i, ierr i).

(** The store that ends [query]: [custom.isCache && !cacheBufferErr]. *)
Definition query_store (custom : Custom) (dbcacheDataKey query : string)
           (cacheBuffer : list Byte.byte) (cacheBufferErr : bool) : M unit :=
  if isCache custom && negb cacheBufferErr then
    err <- custom_cache_Set dbcacheDataKey cacheBuffer (cacheExpire custom) ;;
    match err with
    | Some err => log_EventErrKv "dbr.select.cache.set" err query ;;; ret tt
    | None => ret tt
    end
  else ret tt.

(** The second half of [query], from the declaration of [cacheBuffer] on:
    the database is queried, the result encoded and stored.  It is reached
    with caching disabled and from every path of the first half that does
    not return. *)
Definition query_db (custom : Custom) (dbcacheDataKey : string) (builder : B)
  : M (B * Z * option error) :=
  if isCount custom then
    '(builder, query, count, err) <- queryCount builder ;;
    match err with
    | Some err =>
        e <- log_EventErrKv "dbr.select.load.scan" err query ;;
        ret (builder, 0%Z, e)
    | None =>
        '(cacheBuffer, cacheBufferErr) <-
          (if isCache custom then
             let '(encoded, err) := gobEncodeInt count in
             match err with
             | Some err =>
                 log_EventErrKv "dbr.select.cache.encode" err query ;;;
                 ret (encoded, true)
             | None => ret (encoded, false)
             end
           else ret ([], false)) ;;
        query_store custom dbcacheDataKey query cacheBuffer cacheBufferErr ;;;
        log_TimingKv "dbr.select" query ;;;
        ret (builder, count, None)
    end
  else
    '(builder, query, rows, err) <- queryRows builder ;;
    match err with
    | Some err =>
        e <- log_EventErrKv "dbr.select.load.scan" err query ;;
        ret (builder, 0%Z, e)
    | None =>
        match rows with
        | None => fun _ => Panic NilPointerDereference
        | Some rows =>
            '(count, err) <- load_dest rows ;;
            match err with
            | Some err =>
                e <- log_EventErrKv "dbr.select.load.scan" err query ;;
                ret (builder, 0%Z, e)
            | None =>
                '(cacheBuffer, cacheBufferErr) <-
                  (if isCache custom then
                     dest <- get_dest ;;
                     let '(encoded, err) := gobEncodeDest dest in
                     match err with
                     | Some err =>
                         log_EventErrKv "dbr.select.cache.encode" err query ;;;
                         ret (encoded, true)
                     | None => ret (encoded, false)
                     end
                   else ret ([], false)) ;;
                query_store custom dbcacheDataKey query cacheBuffer cacheBufferErr ;;;
                log_TimingKv "dbr.select" query ;;;
                ret (builder, count, None)
            end
        end
    end.

(** [query]: the builder after its interpolations, the count and the error
    returned.  As in [exec], the deadline of the context is left out: it
    shows only in what the driver and the cache answer. *)
Definition query (builder : B) (customs : list Custom) : M (B * Z * option error) :=
  let custom := firstCustom customs in
  if isCache custom then
    '(builder, query, err) <- getSQL builder ;;
    match err with
    | Some err =>
        e <- log_EventErrKv "dbr.select.cache.getSQL" err query ;;
        ret (builder, 0%Z, e)
    | None =>
        let query := if isCount custom then countWrap query else query in
        let dbcacheDataKey := cacheKey custom in
        if dbcacheDataKey =? "" then
          e <- log_EventErrKv "dbr.select.cache.key"
                 (errors_New "cache.key can not be empty") query ;;
          ret (builder, 0%Z, e)
        else
          '(reply, exist_, err) <- custom_cache_GetBytes dbcacheDataKey ;;
          match err with
          | Some err =>
              log_EventErrKv "dbr.select.cache.get" err query ;;;
              query_db custom dbcacheDataKey builder
          | None =>
              if exist_ then
                if isCount custom then
                  match gobDecodeInt reply with
                  | inr err =>
                      log_EventErrKv "dbr.select.cache.decode" err query ;;;
                      query_db custom dbcacheDataKey builder
                  | inl count =>
                      log_TimingKv "dbr.select.cache" query ;;;
                      ret (builder, count, None)
                  end
                else
                  err <- decode_dest reply ;;
                  match err with
                  | Some err =>
                      log_EventErrKv "dbr.select.cache.decode" err query ;;;
                      query_db custom dbcacheDataKey builder
                  | None =>
                      dest <- get_dest ;;
                      if negb (destIsPtr dest) then
                        e <- log_EventErrKv "dbr.select.cache.decode"
                               ErrInvalidPointer query ;;
                        ret (builder, 0%Z, e)
                      else
                        let count := match destSliceLen dest with
                                     | Some n => n
                                     | None => 1%Z
                                     end in
                        log_TimingKv "dbr.select.cache" query ;;;
                        ret (builder, count, None)
                  end
              else query_db custom dbcacheDataKey builder
          end
    end
  else query_db custom "" builder.

End Engine.

(* ------------------------------------------------------------------ *)
(** * Executing a CaseUpdateStmt *)

(** Build with a nil dialect: the two guards need no dialect, and
    [d.QuoteIdent(b.Table)], the first use of the dialect, panics. *)
Definition Build_nil_Dialect (b : CaseUpdateStmt) (buf : Buffer)
  : result (CaseUpdateStmt * Buffer * option error) :=
  let b := if (RunLen b =? 0)%Z then set_RunLen b 1000%Z else b in
  if Table b =? "" then Ret (b, buf, Some ErrTableNotSpecified)
  else if (List.length (Column b) =? 0)%nat then Ret (b, buf, Some ErrColumnNotSpecified)
  else Panic NilPointerDereference.

(** Modelled from the spec: how the interpolator treats a builder is not
    among the sources.  It builds the statement once into a fresh buffer,
    hands back the error of [Build] if there is one, and otherwise renders
    the built text and values ([interpolate], a parameter) into the final
    SQL and bound values, which can fail. *)
Definition caseUpdateBuilder (d : Dialect)
           (interpolate : string -> list iface -> Interp) : Builder CaseUpdateStmt :=
  {| encodePlaceholder := fun b =>
       match (match b_Dialect b with
              | FromSession => Build d b NewBuffer
              | NilInterface => Build_nil_Dialect b NewBuffer
              end) with
       | Panic p => Panic p
       | Ret (b', _, Some err) =>
           Ret (b', {| isql := ""; ivalue := []; ierr := Some err |})
       | Ret (b', buf, None) => Ret (b', interpolate (buf_str buf) (buf_val buf))
       end |}.

(** A method called on a nil interface value. *)
Definition nil_call {W A : Type} : M W A := fun _ => Panic NilPointerDereference.

Section NilReceiver.

Context {DbState Result Rows CacheState Dest B : Type}.
Context {runner : Runner DbState Result Rows}.
Context {dst : Destination Dest Rows}.
Context {bld : Builder B}.

Local Abbreviation World := (World DbState CacheState Dest).
Local Abbreviation M := (M World).

(** [exec] with a nil receiver and no [Custom]: the type assertion to the
    tracing receiver fails without a panic, and each path ends in a call of
    [EventErrKv] or [TimingKv] on the nil receiver. *)
Definition exec_nil_receiver (builder : B)
  : M (B * option Result * option error) :=
  '(builder, i) <- interpolate_builder builder ;;
  let query := isql i in
  let value := ivalue i in
  match ierr i with
  | Some _ => nil_call
  | None =>
      '(result, err) <- runner_ExecContext query value ;;
      match err with
      | Some _ => nil_call
      | None => nil_call
      end
  end.

(** [query] with a nil receiver and no [Custom]: caching is off and rows
    are asked for; each path ends in a call on the nil receiver. *)
Definition query_nil_receiver (builder : B) : M (B * Z * option error) :=
  '(builder, i) <- interpolate_builder builder ;;
  let query := isql i in
  let value := ivalue i in
  match ierr i with
  | Some _ => nil_call
  | None =>
      '(rows, err) <- runner_QueryContext query value ;;
      match err with
      | Some _ => nil_call
      | None =>
          '(count, err) <- load_dest rows ;;
          match err with
          | Some _ => nil_call
          | None => nil_call
          end
      end
  end.

End NilReceiver.

Section CaseUpdateExec.

Context {DbState Result Rows CacheState Dest : Type}.
Context {runner : Runner DbState Result Rows}.
Context {cache : CustomCache CacheState}.
Context {log : EventReceiver}.
Context {dst : Destination Dest Rows}.
Variable d : Dialect.
Variable interpolate : string -> list iface -> Interp.

Local Abbreviation World := (World DbState CacheState Dest).
Local Abbreviation M := (M World).

(** [exec(ctx, b.runner, b.EventReceiver, b, b.Dialect)]: [exec] opens with
    [runner.GetTimeout()], which panics on a nil runner; with a runner, it
    runs with the receiver and the dialect the statement holds. *)
Definition exec_stmt (b : CaseUpdateStmt)
  : M (CaseUpdateStmt * option Result * option error) :=
  match b_runner b with
  | NilInterface => nil_call
  | FromSession =>
      match b_EventReceiver b with
      | NilInterface => exec_nil_receiver (bld := caseUpdateBuilder d interpolate) b
      | FromSession => exec (bld := caseUpdateBuilder d interpolate) b []
      end
  end.

(** [CaseUpdateStmt.ExecContext]. *)
Definition CaseUpdateStmt_ExecContext (b : CaseUpdateStmt)
  : M (CaseUpdateStmt * option Result * option error) :=
  '(b, result, err) <- exec_stmt b ;;
  match err with
  | Some err => ret (b, None, Some err)
  | None => ret (b, result, None)
  end.

(** The loop of [Exec], [for len(b.Value) > 0 && err == nil], unrolled at
    most [fuel] times; [None] when the fuel runs out before the loop ends. *)
Fixpoint Exec_loop (fuel : nat) (b : CaseUpdateStmt) (w : World)
  : option (result (CaseUpdateStmt * option error * World)) :=
  match Value b with
  | [] => Some (Ret (b, None, w))
  | _ :: _ =>
      match fuel with
      | O => None
      | S fuel =>
          match CaseUpdateStmt_ExecContext b w with
          | Panic p => Some (Panic p)
          | Ret (b', _, Some err, w') => Some (Ret (b', Some err, w'))
          | Ret (b', _, None, w') => Exec_loop fuel b' w'
          end
      end
  end.

(** [Exec].  Every cycle that does not end the loop removes a row, so as
    many cycles as there are rows are enough ([Exec_total] below). *)
Definition Exec (b : CaseUpdateStmt) (w : World)
  : option (result (CaseUpdateStmt * option error * World)) :=
  Exec_loop (List.length (Value b)) b w.

End CaseUpdateExec.

(** The number of statements sent to the driver's [ExecContext]. *)
Definition count_DbExec (trace : list Action) : nat :=
  List.length (filter (fun a => match a with DbExec _ _ => true | _ => false end) trace).

(* ------------------------------------------------------------------ *)
(** * An environment for the examples *)

Module Example.

(** A driver that accepts every statement: one row affected, and one row
    holding 3 for every query.  Its state counts the calls. *)
Definition okRunner : Runner nat Z (list Z) :=
  {| ExecContext := fun n _ _ => (S n, 1%Z, None);
     QueryContext := fun n _ _ => (S n, [3%Z], None) |}.

(** A cache kept as an association list; it never fails. *)
Definition mapCache : CustomCache (list (string * list Byte.byte)) :=
  {| cache_Set := fun c k v _ => ((k, v) :: c, None);
     cache_GetBytes := fun c k =>
       match find (fun e => String.eqb (fst e) k) c with
       | Some e => (c, (snd e, true, None))
       | None => (c, ([], false, None))
       end;
     cache_Del := fun c k =>
       (filter (fun e => negb (String.eqb (fst e) k)) c, None) |}.

(** A cache whose backend fails on every call. *)
Definition brokenCache : CustomCache unit :=
  {| cache_Set := fun c _ _ _ => (c, Some (errors_New "cache down"));
     cache_GetBytes := fun c _ => (c, ([], false, Some (errors_New "cache down")));
     cache_Del := fun c _ => (c, Some (errors_New "cache down")) |}.

(** A destination that is a slice of integers.  The encoding is a stand-in
    for gob: the decimal text of a count, one byte per element. *)
Definition sliceDest : Destination (list Z) (list Z) :=
  {| gobDecodeInt := fun bs =>
       match bs with
       | [] => inr (errors_New "EOF")
       | _ => inl (Z.of_nat (List.length bs))
       end;
     gobEncodeInt := fun n => (repeat Byte.x01 (Z.to_nat n), None);
     gobDecodeDest := fun bs dest =>
       match bs with
       | [] => (dest, Some (errors_New "EOF"))
       | _ => (map (fun _ => 0%Z) bs, None)
       end;
     gobEncodeDest := fun dest => (map (fun _ => Byte.x01) dest, None);
     destIsPtr := fun _ => true;
     destSliceLen := fun dest => Some (Z.of_nat (List.length dest));
     Load := fun rows dest => ((dest ++ rows)%list, Z.of_nat (List.length rows), None);
     rowsNext := fun rows => match rows with [] => false | _ => true end;
     rowsScanInt := fun rows => hd 0%Z rows |}.

(** A builder that renders the same statement every time. *)
Definition constBuilder : Builder Interp :=
  {| encodePlaceholder := fun i => Ret (i, i) |}.

(** An interpolator step that leaves the built text and values as they
    are. *)
Definition plain (sql : string) (value : list iface) : Interp :=
  {| isql := sql; ivalue := value; ierr := None |}.

Definition selectUsers : Interp :=
  {| isql := "SELECT * FROM users"; ivalue := []; ierr := None |}.

Definition world0 {C} (c : C) : World nat C (list Z) :=
  {| w_db := 0; w_cache := c; w_dest := []; w_trace := [] |}.

(** sess.CaseUpdate("t").Columns("id","a").Values(1,"x").Values(2,"y").SetRunLen(1) *)
Definition twoRows : CaseUpdateStmt :=
  SetRunLen
    (Values (Values (Columns (Session_CaseUpdate "t") "id" ["a"]) (VInt 1) [VStr "x"])
            (VInt 2) [VStr "y"]) 1.

End Example.


(* ------------------------------------------------------------------ *)
(** * What Build writes, in the words of the specification *)

(** The window of a cycle: the first [runLen] rows when [runLen] is
    positive, every row otherwise. *)
Definition window (runLen : Z) (rows : list CaseUpdateValue) : list CaseUpdateValue :=
  if (0 <? runLen)%Z then firstn (Z.to_nat runLen) rows else rows.

(** [RunLen] as Build uses it: 1000 in place of 0. *)
Definition effRunLen (b : CaseUpdateStmt) : Z :=
  if (RunLen b =? 0)%Z then 1000%Z else RunLen b.

Fixpoint join (sep : string) (l : list string) : string :=
  match l with
  | [] => ""
  | [x] => x
  | x :: rest => x ++ sep ++ join sep rest
  end.

Fixpoint concat_str (l : list string) : string :=
  match l with
  | [] => ""
  | x :: rest => x ++ concat_str rest
  end.

(** [Some (name, op)] when [col] is [name] followed by the marker [op],
    which is ["+"] or ["-"]; [None] for a name without such a suffix. *)
Fixpoint strip_marker (col : string) : option (string * string) :=
  match col with
  | EmptyString => None
  | String c EmptyString =>
      if Ascii.eqb c "+" then Some ("", "+")
      else if Ascii.eqb c "-" then Some ("", "-")
      else None
  | String c rest =>
      match strip_marker rest with
      | Some (name, op) => Some (String c name, op)
      | None => None
      end
  end.

(** [ CASE pk WHEN ? THEN ? ... END ] with one WHEN clause per row of the
    window. *)
Definition spec_case (d : Dialect) (pk : string) (win : list CaseUpdateValue) : string :=
  " CASE " ++ QuoteIdent d pk
    ++ concat_str (map (fun _ => " WHEN ? THEN ? ") win) ++ " END ".

(** One column: [col = col <op> CASE ... END] for a marked name, the marker
    stripped, and [col = CASE ... END] otherwise. *)
Definition spec_column (d : Dialect) (pk : string) (win : list CaseUpdateValue)
           (col : string) : string :=
  match strip_marker col with
  | Some (name, op) =>
      QuoteIdent d name ++ " = " ++ QuoteIdent d name ++ " " ++ op ++ " "
        ++ spec_case d pk win
  | None => QuoteIdent d col ++ " = " ++ spec_case d pk win
  end.

(** The whole statement over a window. *)
Definition spec_sql (d : Dialect) (table pk : string) (cols : list string)
           (win : list CaseUpdateValue) : string :=
  "UPDATE " ++ QuoteIdent d table ++ " SET "
    ++ join ", " (map (spec_column d pk win) cols)
    ++ " WHERE " ++ QuoteIdent d pk ++ " IN ("
    ++ join ", " (map (fun _ => " ? ") win) ++ " )".

(** The values bound for column [i]: key and value of every row. *)
Definition spec_column_values (i : nat) (win : list CaseUpdateValue) : list iface :=
  flat_map (fun v => [VStr (Key v); nth i (Val v) VNil]) win.

(** The values bound by the whole statement: column by column, then the
    keys of the IN list. *)
Definition spec_values (ncols : nat) (win : list CaseUpdateValue) : list iface :=
  (flat_map (fun i => spec_column_values i win) (seq 0 ncols)
     ++ map (fun v => VStr (Key v)) win)%list.

(** A statement that Build can render: table and columns are there, no
    column name is empty, and every row has a value for every column. *)
Record well_formed (b : CaseUpdateStmt) : Prop := {
  wf_table : Table b <> "";
  wf_columns : Column b <> [];
  wf_names : Forall (fun col => col <> "") (Column b);
  wf_rows : Forall (fun v => (List.length (Column b) <= List.length (Val v))%nat) (Value b)
}.

Definition ceil_div (n k : Z) : Z := ((n + k - 1) / k)%Z.

(** The statement sent to the driver for one window: the text and values of
    the window, through the interpolator. *)
Definition issued (d : Dialect) (interpolate : string -> list iface -> Interp)
           (b : CaseUpdateStmt) (win : list CaseUpdateValue) : Interp :=
  interpolate (spec_sql d (Table b) (PKey b) (Column b) win)
              (spec_values (List.length (Column b)) win).

(** Helpers for the proofs: a buffer extended by a text and values, the
    window seen from row [x], and the columns seen from column [i]. *)
Definition buf_app (buf : Buffer) (s : string) (vs : list iface) : Buffer :=
  {| buf_str := buf_str buf ++ s; buf_val := (buf_val buf ++ vs)%list |}.

Definition windowFrom (runLen : Z) (x : nat) (rows : list CaseUpdateValue)
  : list CaseUpdateValue :=
  if (0 <? runLen)%Z then firstn (Z.to_nat runLen - x) rows else rows.

Definition spec_head (d : Dialect) (col : string) : string :=
  match strip_marker col with
  | Some (name, op) =>
      QuoteIdent d name ++ " = " ++ QuoteIdent d name ++ " " ++ op ++ " "
  | None => QuoteIdent d col ++ " = "
  end.

(** [join ", "] as the loops compute it: the separator goes before every
    element but the one with counter 0. *)
Fixpoint join_from (i : nat) (l : list string) : string :=
  match l with
  | [] => ""
  | x :: rest => (if (0 <? i)%nat then ", " else "") ++ x ++ join_from (S i) rest
  end.

(** What a caller of [query] can observe of an outcome: the values
    returned and the states of the database, the cache and the destination.
    The events handed to the receiver are left out. *)
Definition observable {DbState CacheState Dest B : Type}
           (r : result (B * Z * option error * World DbState CacheState Dest))
  : result (B * Z * option error * DbState * CacheState * Dest) :=
  match r with
  | Panic p => Panic p
  | Ret (b, n, e, w) => Ret (b, n, e, w_db w, w_cache w, w_dest w)
  end.

Definition add_trace {DbState CacheState Dest : Type}
           (w : World DbState CacheState Dest) (t : list Action)
  : World DbState CacheState Dest :=
  {| w_db := w_db w; w_cache := w_cache w; w_dest := w_dest w;
     w_trace := (w_trace w ++ t)%list |}.

(** The ways the cache read of [query] can fail, given what [GetBytes]
    returned: a backend error, or bytes that do not decode into the count or
    into the destination.  [eventName] and [e] are what is reported to the
    receiver and [dest'] is the destination after the attempt. *)
Inductive cache_read_fails {Dest Rows : Type} {dst : Destination Dest Rows}
          (custom : Custom) (reply : list Byte.byte) (exist_ : bool)
          (cerr : option error) (dest : Dest)
  : string -> error -> Dest -> Prop :=
| backend_error e :
    cerr = Some e ->
    cache_read_fails custom reply exist_ cerr dest "dbr.select.cache.get" e dest
| count_decode_error e :
    cerr = None -> exist_ = true -> isCount custom = true ->
    gobDecodeInt reply = inr e ->
    cache_read_fails custom reply exist_ cerr dest "dbr.select.cache.decode" e dest
| dest_decode_error e dest' :
    cerr = None -> exist_ = true -> isCount custom = false ->
    gobDecodeDest reply dest = (dest', Some e) ->
    cache_read_fails custom reply exist_ cerr dest "dbr.select.cache.decode" e dest'.

(** The statements on which [SetRunLen] was never called: made by
    [CaseUpdate] and changed by [Columns], [Values] and [Returning] only. *)
Inductive RunLen_unset : CaseUpdateStmt -> Prop :=
| unset_CaseUpdate table : RunLen_unset (CaseUpdate table)
| unset_Session_CaseUpdate table : RunLen_unset (Session_CaseUpdate table)
| unset_Columns b pkey column : RunLen_unset b -> RunLen_unset (Columns b pkey column)
| unset_Values b pk value : RunLen_unset b -> RunLen_unset (Values b pk value)
| unset_Returning b column : RunLen_unset b -> RunLen_unset (Returning b column).

(** How many accumulated rows carry the key [pk]. *)
Definition count_key (pk : string) (rows : list CaseUpdateValue) : nat :=
  List.length (filter (fun v => String.eqb (Key v) pk) rows).

(** How many WHEN clauses a statement text holds: the occurrences of
    ["WHEN"] in it. *)
Fixpoint count_WHEN (s : string) : nat :=
  match s with
  | EmptyString => 0
  | String _ rest =>
      (if String.prefix "WHEN" s then 1 else 0) + count_WHEN rest
  end.

(** [base.Values(1, 0).Values(2, 0) ... .Values(n, 0)]. *)
Definition manyRows (n : nat) : CaseUpdateStmt :=
  fold_left (fun b i => Values b (VInt (Z.of_nat i)) [VInt 0])
            (seq 1 n) (Columns (CaseUpdate "t") "id" ["a"]).

(* ------------------------------------------------------------------ *)
(** * Loading through a CaseUpdateStmt, and further notions for the
      properties below *)

Section CaseUpdateLoad.

Context {DbState Result Rows CacheState Dest : Type}.
Context {runner : Runner DbState Result Rows}.
Context {cache : CustomCache CacheState}.
Context {log : EventReceiver}.
Context {dst : Destination Dest Rows}.
Variable d : Dialect.
Variable interpolate : string -> list iface -> Interp.

Local Abbreviation World := (World DbState CacheState Dest).
Local Abbreviation M := (M World).

(** [query(ctx, b.runner, b.EventReceiver, b, b.Dialect, value)]: [query]
    opens with [runner.GetTimeout()] as [exec] does. *)
Definition query_stmt (b : CaseUpdateStmt) : M (CaseUpdateStmt * Z * option error) :=
  match b_runner b with
  | NilInterface => nil_call
  | FromSession =>
      match b_EventReceiver b with
      | NilInterface => query_nil_receiver (bld := caseUpdateBuilder d interpolate) b
      | FromSession => query (bld := caseUpdateBuilder d interpolate) b []
      end
  end.

(** [CaseUpdateStmt.LoadContext]: [query] without any [Custom]; the count
    is dropped.  The destination is the one of the world. *)
Definition CaseUpdateStmt_LoadContext (b : CaseUpdateStmt)
  : M (CaseUpdateStmt * option error) :=
  '(b, _, err) <- query_stmt b ;;
  ret (b, err).

(** [CaseUpdateStmt.Load]: [LoadContext] with the background context. *)
Definition CaseUpdateStmt_Load (b : CaseUpdateStmt) : M (CaseUpdateStmt * option error) :=
  CaseUpdateStmt_LoadContext b.

End CaseUpdateLoad.

(** Collaborators that fail, for the examples. *)
Module Faulty.

(** A driver that refuses every statement. *)
Definition refusingRunner : Runner nat Z (list Z) :=
  {| ExecContext := fun n _ _ => (S n, 0%Z, Some (errors_New "refused"));
     QueryContext := fun n _ _ => (S n, [], Some (errors_New "refused")) |}.

(** A receiver that answers nil to every error. *)
Definition silentReceiver : EventReceiver :=
  {| EventErrKv := fun _ _ _ => None |}.

(** A statement that does not render. *)
Definition unrendered : Interp :=
  {| isql := "SELECT"; ivalue := []; ierr := Some (errors_New "unsupported") |}.

(** sess.CaseUpdate("").Columns("id","a").Values(1,"x").Values(2,"y").SetRunLen(1):
    no table. *)
Definition noTable : CaseUpdateStmt :=
  SetRunLen
    (Values (Values (Columns (Session_CaseUpdate "") "id" ["a"]) (VInt 1) [VStr "x"])
            (VInt 2) [VStr "y"]) 1.


(** A destination as [Example.sliceDest], but whose decoder has appended an
    element when it finds that the bytes, which start with a zero byte, are
    corrupted. *)
Definition junkDest : Destination (list Z) (list Z) :=
  {| gobDecodeInt := fun bs =>
       match bs with
       | [] => inr (errors_New "EOF")
       | _ => inl (Z.of_nat (List.length bs))
       end;
     gobEncodeInt := fun n => (repeat Byte.x01 (Z.to_nat n), None);
     gobDecodeDest := fun bs dest =>
       match bs with
       | [] => (dest, Some (errors_New "EOF"))
       | Byte.x00 :: _ => ((dest ++ [99%Z])%list, Some (errors_New "corrupted"))
       | _ => (map (fun _ => 0%Z) bs, None)
       end;
     gobEncodeDest := fun dest => (map (fun _ => Byte.x01) dest, None);
     destIsPtr := fun _ => true;
     destSliceLen := fun dest => Some (Z.of_nat (List.length dest));
     Load := fun rows dest => ((dest ++ rows)%list, Z.of_nat (List.length rows), None);
     rowsNext := fun rows => match rows with [] => false | _ => true end;
     rowsScanInt := fun rows => hd 0%Z rows |}.

End Faulty.

(** The rows cut into consecutive windows of [k] rows, the last one
    shorter when the rows do not divide; [fuel] bounds the number of
    windows. *)
Fixpoint chunks (fuel k : nat) (rows : list CaseUpdateValue)
  : list (list CaseUpdateValue) :=
  match fuel with
  | O => []
  | S fuel =>
      match rows with
      | [] => []
      | _ :: _ => firstn k rows :: chunks fuel k (skipn k rows)
      end
  end.

Definition windows (k : nat) (rows : list CaseUpdateValue) : list (list CaseUpdateValue) :=
  chunks (List.length rows) k rows.

(** What one successful cycle of Exec leaves in the trace for a window. *)
Definition cycle_trace (d : Dialect) (interpolate : string -> list iface -> Interp)
           (b : CaseUpdateStmt) (win : list CaseUpdateValue) : list Action :=
  let it := issued d interpolate b win in
  [DbExec (isql it) (ivalue it); LogTiming "dbr.exec" (isql it)].

Section CyclesSucceed.

Context {DbState Result Rows : Type}.
Context {runner : Runner DbState Result Rows}.
Variable d : Dialect.
Variable interpolate : string -> list iface -> Interp.

(** The statements of the windows [wins], sent one after the other from the
    database state [db], all succeed: each is interpolated without error and
    executed by the driver without error, the next one on the state the
    driver left. *)
Fixpoint cycles_succeed (b : CaseUpdateStmt) (db : DbState)
         (wins : list (list CaseUpdateValue)) : Prop :=
  match wins with
  | [] => True
  | win :: wins =>
      let it := issued d interpolate b win in
      ierr it = None
      /\ snd (ExecContext db (isql it) (ivalue it)) = None
      /\ cycles_succeed b (fst (fst (ExecContext db (isql it) (ivalue it)))) wins
  end.

End CyclesSucceed.

(** The number of placeholders [?] in a text. *)
Fixpoint count_q (s : string) : nat :=
  match s with
  | EmptyString => 0
  | String c rest => (if Ascii.eqb c "?" then 1 else 0) + count_q rest
  end.

(** The identifier Build quotes for a column: the name without its marker. *)
Definition column_ident (col : string) : string :=
  match strip_marker col with
  | Some (name, _) => name
  | None => col
  end.

(** The actions on the cache. *)
Definition is_cache_action (a : Action) : bool :=
  match a with
  | CacheGet _ | CacheSet _ _ _ | CacheDel _ => true
  | _ => false
  end.

(** The actions on the database. *)
Definition is_db_action (a : Action) : bool :=
  match a with
  | DbExec _ _ | DbQuery _ _ => true
  | _ => false
  end.

Unset Implicit Arguments.

(* ------------------------------------------------------------------ *)
(** * Strings *)

Lemma append_assoc (a b c : string) : (a ++ b) ++ c = a ++ (b ++ c).
Proof. induction a as [|x a IH]; simpl; [reflexivity | now rewrite IH]. Qed.

Lemma append_nil_r (a : string) : a ++ "" = a.
Proof. induction a as [|x a IH]; simpl; [reflexivity | now rewrite IH]. Qed.

Lemma length_append (a b : string) :
  String.length (a ++ b) = (String.length a + String.length b)%nat.
Proof. induction a as [|x a IH]; simpl; [reflexivity | now rewrite IH]. Qed.

Lemma get_snoc (a : string) (c : ascii) :
  String.get (String.length a) (a ++ String c "") = Some c.
Proof. induction a as [|x a IH]; simpl; [reflexivity | exact IH]. Qed.

Lemma substring_snoc (a : string) (c : ascii) :
  String.substring 0 (String.length a) (a ++ String c "") = a.
Proof. induction a as [|x a IH]; simpl; [reflexivity | now rewrite IH]. Qed.

(** A string that is not empty is a string followed by its last byte. *)
Lemma string_snoc (s : string) :
  s <> "" -> exists a c, s = a ++ String c "".
Proof.
  induction s as [|x s IH]; intros H; [congruence |].
  destruct s as [|y s].
  - exists "", x. reflexivity.
  - destruct IH as (a & c & E); [discriminate |].
    exists (String x a), c. simpl. now rewrite E.
Qed.

Lemma str_index_last (a : string) (c : ascii) :
  str_index (a ++ String c "")
            (Z.of_nat (String.length (a ++ String c "")) - 1) = Ret c.
Proof.
  unfold str_index. rewrite length_append. simpl String.length.
  replace (Z.of_nat (String.length a + 1) - 1)%Z with (Z.of_nat (String.length a)) by lia.
  destruct (Z.ltb_spec (Z.of_nat (String.length a)) 0); [lia |].
  destruct (Z.leb_spec (Z.of_nat (String.length a + 1)) (Z.of_nat (String.length a))); [lia |].
  simpl. rewrite Nat2Z.id, get_snoc. reflexivity.
Qed.

Lemma str_slice_init (a : string) (c : ascii) :
  str_slice (a ++ String c "") 0
            (Z.of_nat (String.length (a ++ String c "")) - 1) = Ret a.
Proof.
  unfold str_slice. rewrite length_append. simpl String.length.
  replace (Z.of_nat (String.length a + 1) - 1)%Z with (Z.of_nat (String.length a)) by lia.
  destruct (Z.ltb_spec (Z.of_nat (String.length a)) 0); [lia |].
  destruct (Z.ltb_spec (Z.of_nat (String.length a + 1)) (Z.of_nat (String.length a))); [lia |].
  simpl. rewrite Z.sub_0_r, Nat2Z.id, substring_snoc. reflexivity.
Qed.

Lemma str_index_empty :
  str_index "" (Z.of_nat (String.length "") - 1) = Panic (IndexOutOfRange (-1) 0).
Proof. reflexivity. Qed.

Lemma strip_marker_snoc (a : string) (c : ascii) :
  strip_marker (a ++ String c "") =
  if Ascii.eqb c "+" then Some (a, "+")
  else if Ascii.eqb c "-" then Some (a, "-") else None.
Proof.
  induction a as [|x a IH]; [reflexivity |].
  change ((String x a) ++ String c "") with (String x (a ++ String c "")).
  cbn [strip_marker]. rewrite IH.
  destruct (a ++ String c "") eqn:E.
  - destruct a; discriminate.
  - destruct (Ascii.eqb c "+"); [reflexivity |].
    destruct (Ascii.eqb c "-"); reflexivity.
Qed.

Lemma string_of_byte_eqb (c : ascii) (s : ascii) :
  (string_of_byte c =? String s "") = Ascii.eqb c s.
Proof.
  unfold string_of_byte. simpl. destruct (Ascii.eqb c s); reflexivity.
Qed.

(* ------------------------------------------------------------------ *)
(** * Buffers *)

Lemma WriteString_app (buf : Buffer) (s : string) : WriteString buf s = buf_app buf s [].
Proof. unfold WriteString, buf_app. now rewrite app_nil_r. Qed.

Lemma WriteValue_app (buf : Buffer) (v : iface) : WriteValue buf v = buf_app buf "" [v].
Proof. unfold WriteValue, buf_app. now rewrite append_nil_r. Qed.

Lemma buf_app_app (buf : Buffer) s1 v1 s2 v2 :
  buf_app (buf_app buf s1 v1) s2 v2 = buf_app buf (s1 ++ s2) (v1 ++ v2)%list.
Proof. unfold buf_app; simpl. now rewrite append_assoc, <- app_assoc. Qed.

Lemma buf_app_nil (buf : Buffer) : buf_app buf "" [] = buf.
Proof. destruct buf; unfold buf_app; simpl. now rewrite append_nil_r, app_nil_r. Qed.

Lemma append_nil_l (a : string) : "" ++ a = a.
Proof. reflexivity. Qed.

Ltac buf_norm :=
  repeat rewrite WriteString_app; repeat rewrite WriteValue_app;
  repeat rewrite buf_app_app.

(** Both sides of an equation between buffers, put in one shape: texts and
    value lists nested to the right, empty pieces dropped. *)
Ltac buf_eq :=
  buf_norm;
  repeat rewrite append_assoc; repeat rewrite append_nil_l;
  repeat rewrite append_nil_r;
  repeat rewrite <- app_assoc; cbn [app]; repeat rewrite app_nil_r;
  reflexivity.

(* ------------------------------------------------------------------ *)
(** * The loops of Build *)

Lemma window_windowFrom (runLen : Z) (rows : list CaseUpdateValue) :
  window runLen rows = windowFrom runLen 0 rows.
Proof. unfold window, windowFrom. now rewrite Nat.sub_0_r. Qed.

Lemma windowFrom_nil (runLen : Z) (x : nat) : windowFrom runLen x [] = [].
Proof. unfold windowFrom. destruct (0 <? runLen)%Z; [apply firstn_nil | reflexivity]. Qed.

Lemma windowFrom_break (runLen : Z) (x : nat) rows :
  window_break runLen x = true -> windowFrom runLen x rows = [].
Proof.
  unfold window_break, windowFrom. intros H.
  apply andb_true_iff in H as [H1 H2]. rewrite H2.
  apply Z.leb_le in H1.
  replace (Z.to_nat runLen - x)%nat with 0%nat by lia. reflexivity.
Qed.

Lemma windowFrom_cons (runLen : Z) (x : nat) v rows :
  window_break runLen x = false ->
  windowFrom runLen x (v :: rows) = v :: windowFrom runLen (S x) rows.
Proof.
  unfold window_break, windowFrom. intros H.
  destruct (Z.ltb_spec 0 runLen) as [Hp | Hp]; [| reflexivity].
  rewrite andb_true_r in H. apply Z.leb_gt in H.
  replace (Z.to_nat runLen - x)%nat with (S (Z.to_nat runLen - S x)) by lia.
  reflexivity.
Qed.

Lemma slice_index_nth (l : list iface) (i : nat) :
  (i < List.length l)%nat -> slice_index l i = Ret (nth i l VNil).
Proof.
  intros H. unfold slice_index.
  destruct (nth_error l i) eqn:E.
  - now rewrite (nth_error_nth _ _ VNil E).
  - apply nth_error_None in E. lia.
Qed.

Lemma whenLoop_spec (runLen : Z) (i : nat) (rows : list CaseUpdateValue) :
  Forall (fun v => (i < List.length (Val v))%nat) rows ->
  forall x buf,
    whenLoop runLen i x rows buf =
    Ret (buf_app buf
           (concat_str (map (fun _ => " WHEN ? THEN ? ") (windowFrom runLen x rows)))
           (spec_column_values i (windowFrom runLen x rows))).
Proof.
  induction 1 as [| v rest Hv _ IH]; intros x buf.
  - rewrite windowFrom_nil. simpl. now rewrite buf_app_nil.
  - cbn [whenLoop]. destruct (window_break runLen x) eqn:Hb.
    + rewrite (windowFrom_break _ _ _ Hb). simpl. now rewrite buf_app_nil.
    + rewrite (windowFrom_cons _ _ _ _ Hb), (slice_index_nth _ _ Hv), IH.
      buf_norm. reflexivity.
Qed.

Lemma whereKeyLoop_spec (runLen : Z) (rows : list CaseUpdateValue) :
  forall x acc,
    whereKeyLoop runLen x rows acc = (acc ++ map Key (windowFrom runLen x rows))%list.
Proof.
  induction rows as [| v rest IH]; intros x acc.
  - rewrite windowFrom_nil. simpl. now rewrite app_nil_r.
  - cbn [whereKeyLoop]. destruct (window_break runLen x) eqn:Hb.
    + rewrite (windowFrom_break _ _ _ Hb). simpl. now rewrite app_nil_r.
    + rewrite (windowFrom_cons _ _ _ _ Hb), IH. simpl. now rewrite <- app_assoc.
Qed.

Lemma inListLoop_spec (keys : list string) :
  forall i buf,
    inListLoop i keys buf =
    buf_app buf (join_from i (map (fun _ => " ? ") keys)) (map VStr keys).
Proof.
  induction keys as [| k rest IH]; intros i buf.
  - simpl. now rewrite buf_app_nil.
  - cbn [inListLoop join_from map]. rewrite IH.
    destruct (0 <? i)%nat; buf_norm; simpl; reflexivity.
Qed.

Lemma spec_column_head (d : Dialect) pk win col :
  spec_column d pk win col = spec_head d col ++ spec_case d pk win.
Proof.
  unfold spec_column, spec_head. destruct (strip_marker col) as [[name op] |].
  - now rewrite !append_assoc.
  - now rewrite !append_assoc.
Qed.

Lemma columnHead_spec (d : Dialect) (col : string) (buf : Buffer) :
  col <> "" -> columnHead d col buf = Ret (buf_app buf (spec_head d col) []).
Proof.
  intros H. destruct (string_snoc _ H) as (a & c & ->).
  unfold columnHead, spec_head.
  rewrite str_index_last, str_slice_init, strip_marker_snoc, !string_of_byte_eqb.
  destruct (Ascii.eqb_spec c "+") as [-> | Hplus].
  - simpl orb. cbv iota. buf_norm. reflexivity.
  - destruct (Ascii.eqb_spec c "-") as [-> | Hminus].
    + simpl orb. cbv iota. buf_norm. reflexivity.
    + simpl orb. cbv iota. buf_norm. reflexivity.
Qed.

Lemma join_from_S (l : list string) :
  forall i, join_from (S i) l = concat_str (map (fun x => ", " ++ x) l).
Proof.
  induction l as [| x rest IH]; intros i; [reflexivity |].
  cbn [join_from map concat_str]. rewrite IH.
  change (0 <? S i)%nat with true. cbv iota. now rewrite !append_assoc.
Qed.

Lemma join_concat (x : string) (rest : list string) :
  join ", " (x :: rest) = x ++ concat_str (map (fun y => ", " ++ y) rest).
Proof.
  revert x. induction rest as [| y rest IH]; intros x.
  - simpl. now rewrite append_nil_r.
  - change (join ", " (x :: y :: rest)) with (x ++ ", " ++ join ", " (y :: rest)).
    rewrite IH. cbn [map concat_str]. now rewrite !append_assoc.
Qed.

Lemma join_from_0 (l : list string) : join_from 0 l = join ", " l.
Proof.
  destruct l as [| x rest]; [reflexivity |].
  rewrite join_concat. cbn [join_from]. now rewrite join_from_S.
Qed.

Lemma columnLoop_spec (d : Dialect) (b : CaseUpdateStmt) (cols : list string) :
  Forall (fun col => col <> "") cols ->
  forall i buf,
    Forall (fun v => (i + List.length cols <= List.length (Val v))%nat) (Value b) ->
    columnLoop d b i cols buf =
    Ret (buf_app buf
           (join_from i (map (spec_column d (PKey b) (window (RunLen b) (Value b))) cols))
           (flat_map (fun j => spec_column_values j (window (RunLen b) (Value b)))
                     (seq i (List.length cols)))).
Proof.
  induction 1 as [| col rest Hcol _ IH]; intros i buf Hrows.
  - simpl. now rewrite buf_app_nil.
  - cbn [columnLoop].
    assert (Hi : Forall (fun v => (i < List.length (Val v))%nat) (Value b)).
    { eapply Forall_impl; [| exact Hrows]. simpl. intros; lia. }
    assert (Hs : Forall (fun v => (S i + List.length rest <= List.length (Val v))%nat)
                        (Value b)).
    { eapply Forall_impl; [| exact Hrows]. simpl. intros; lia. }
    rewrite (columnHead_spec _ _ _ Hcol), (whenLoop_spec _ _ _ Hi), (IH _ _ Hs).
    rewrite <- window_windowFrom.
    cbn [map join_from List.length seq flat_map].
    rewrite spec_column_head. unfold spec_case.
    destruct (0 <? i)%nat; buf_eq.
Qed.

(* ------------------------------------------------------------------ *)
(** * Build on a well-formed statement *)

Lemma window_pos (k : Z) (rows : list CaseUpdateValue) :
  (0 < k)%Z -> window k rows = firstn (Z.to_nat k) rows.
Proof. intros H. unfold window. now destruct (Z.ltb_spec 0 k); [| lia]. Qed.

Lemma effRunLen_pos (b : CaseUpdateStmt) : (0 <= RunLen b)%Z -> (0 < effRunLen b)%Z.
Proof. unfold effRunLen. destruct (Z.eqb_spec (RunLen b) 0); lia. Qed.

Lemma Build_default (d : Dialect) (b : CaseUpdateStmt) (buf : Buffer) :
  RunLen b = 0%Z -> Build d b buf = Build d (set_RunLen b 1000) buf.
Proof. intros H. unfold Build. rewrite H. reflexivity. Qed.

Lemma Build_pos (d : Dialect) (b : CaseUpdateStmt) (buf : Buffer) :
  well_formed b -> (0 < RunLen b)%Z ->
  Build d b buf =
  Ret (set_Value b (skipn (Z.to_nat (RunLen b)) (Value b)),
       buf_app buf
         (spec_sql d (Table b) (PKey b) (Column b) (window (RunLen b) (Value b)))
         (spec_values (List.length (Column b)) (window (RunLen b) (Value b))),
       None).
Proof.
  intros [Ht Hc Hn Hr] Hk. unfold Build.
  destruct (Z.eqb_spec (RunLen b) 0) as [E | _]; [lia |].
  destruct (String.eqb_spec (Table b) "") as [E | _]; [contradiction |].
  destruct (Nat.eqb_spec (List.length (Column b)) 0) as [E | _].
  { destruct (Column b); [contradiction | discriminate]. }
  rewrite (columnLoop_spec d b _ Hn 0 _ Hr), whereKeyLoop_spec.
  rewrite <- window_windowFrom. cbn [app negb andb].
  assert (Hcons :
    (if ((RunLen b <? Z.of_nat (List.length (Value b)))%Z
         && negb (RunLen b =? 0)%Z)%bool
     then slice_from (Value b) (RunLen b) else Ret [])
    = Ret (skipn (Z.to_nat (RunLen b)) (Value b))).
  { destruct (Z.eqb_spec (RunLen b) 0) as [E | _]; [lia |]. cbn [negb].
    destruct (Z.ltb_spec (RunLen b) (Z.of_nat (List.length (Value b)))) as [Hl | Hl].
    - cbn [andb]. unfold slice_from.
      destruct (Z.ltb_spec (RunLen b) 0); [lia |].
      destruct (Z.ltb_spec (Z.of_nat (List.length (Value b))) (RunLen b)); [lia |].
      reflexivity.
    - cbn [andb]. rewrite skipn_all2; [reflexivity | lia]. }
  rewrite Hcons, inListLoop_spec. cbn [PKey set_Value].
  unfold spec_sql, spec_values. rewrite join_from_0, !map_map, join_from_0.
  do 2 f_equal. buf_eq.
Qed.

(** Build on a well-formed statement whose [RunLen] is not negative: it
    returns without error, leaves [RunLen] at its effective value, removes
    the window from the rows and writes the statement over that window. *)
Lemma Build_spec (d : Dialect) (b : CaseUpdateStmt) (buf : Buffer) :
  well_formed b -> (0 <= RunLen b)%Z ->
  Build d b buf =
  Ret (set_Value (set_RunLen b (effRunLen b))
                 (skipn (Z.to_nat (effRunLen b)) (Value b)),
       buf_app buf
         (spec_sql d (Table b) (PKey b) (Column b) (window (effRunLen b) (Value b)))
         (spec_values (List.length (Column b)) (window (effRunLen b) (Value b))),
       None).
Proof.
  intros Hwf Hk. unfold effRunLen.
  destruct (Z.eqb_spec (RunLen b) 0) as [E | E].
  - rewrite (Build_default _ _ _ E), Build_pos.
    + reflexivity.
    + destruct Hwf; constructor; assumption.
    + simpl. lia.
  - rewrite Build_pos by (assumption || lia).
    destruct b; reflexivity.
Qed.

(* ------------------------------------------------------------------ *)
(** * Values *)

Lemma count_key_app (pk : string) (l1 l2 : list CaseUpdateValue) :
  count_key pk (l1 ++ l2) = (count_key pk l1 + count_key pk l2)%nat.
Proof. unfold count_key. now rewrite filter_app, length_app. Qed.

Lemma count_key_updated (pk : string) (value : list iface) (rows : list CaseUpdateValue) :
  count_key pk
    (map (fun v => if String.eqb (Key v) pk
                   then {| Key := Key v; Val := value |} else v) rows)
  = count_key pk rows.
Proof.
  unfold count_key. induction rows as [| v rest IH]; [reflexivity |].
  cbn [map filter]. destruct (String.eqb (Key v) pk) eqn:E.
  - cbn [Key]. rewrite E. simpl. now rewrite IH.
  - rewrite E. exact IH.
Qed.

(** C1, on the code: [Values] never replaces a row.  Whatever was accumulated,
    a call adds one more row with the given key, so a key given twice is held
    twice; and on Columns("id","a").Values(1,"x").Values(1,"y") the built
    statement has two WHEN clauses for key 1 in the one column, both with the
    latest value, and key 1 twice in the IN list. *)
Theorem Values_same_key_appends_again :
  (forall b PKValue value,
      count_key (Sprint PKValue) (Value (Values b PKValue value))
      = S (count_key (Sprint PKValue) (Value b)))
  /\ (let b := Values (Values (Columns (CaseUpdate "t") "id" ["a"])
                              (VInt 1) [VStr "x"])
                      (VInt 1) [VStr "y"] in
      let sql := "UPDATE `t` SET `a` =  CASE `id` WHEN ? THEN ?  WHEN ? THEN ?  END  WHERE `id` IN ( ? ,  ?  )" in
      Value b = [ {| Key := "1"; Val := [VStr "y"] |};
                  {| Key := "1"; Val := [VStr "y"] |} ]
      /\ Build backquote b NewBuffer =
         Ret (set_Value (set_RunLen b 1000) [],
              {| buf_str := sql;
                 buf_val := [VStr "1"; VStr "y"; VStr "1"; VStr "y";
                             VStr "1"; VStr "1"] |},
              None)
      /\ count_WHEN sql = 2).
Proof.
  split.
  - intros b PKValue value. unfold Values. cbn [Value set_Value].
    rewrite count_key_app, count_key_updated. unfold count_key at 2.
    cbn [filter Key]. rewrite String.eqb_refl. simpl. lia.
  - cbv zeta. repeat split; reflexivity.
Qed.

(* ------------------------------------------------------------------ *)
(** * The window of Build *)

Lemma RunLen_unset_zero (b : CaseUpdateStmt) : RunLen_unset b -> RunLen b = 0%Z.
Proof. induction 1; simpl; auto. Qed.

Lemma Values_fields (b : CaseUpdateStmt) (pk : iface) (value : list iface) :
  Table (Values b pk value) = Table b /\ PKey (Values b pk value) = PKey b
  /\ RunLen (Values b pk value) = RunLen b /\ Column (Values b pk value) = Column b
  /\ List.length (Value (Values b pk value)) = S (List.length (Value b)).
Proof.
  unfold Values; cbn. repeat split. rewrite length_app, length_map. simpl. lia.
Qed.

Lemma Values_rows (n : nat) (b : CaseUpdateStmt) (pk : iface) (value : list iface) :
  (n <= List.length value)%nat ->
  Forall (fun v => (n <= List.length (Val v))%nat) (Value b) ->
  Forall (fun v => (n <= List.length (Val v))%nat) (Value (Values b pk value)).
Proof.
  intros Hv Hb. unfold Values; cbn. apply Forall_app. split.
  - apply Forall_map. eapply Forall_impl; [| exact Hb].
    intros v Hlen. simpl. destruct (String.eqb (Key v) (Sprint pk)); assumption.
  - repeat constructor. exact Hv.
Qed.

Lemma manyRows_inv (l : list nat) :
  forall b,
    Forall (fun v => (1 <= List.length (Val v))%nat) (Value b) ->
    let b' := fold_left (fun b i => Values b (VInt (Z.of_nat i)) [VInt 0]) l b in
    Table b' = Table b /\ PKey b' = PKey b /\ RunLen b' = RunLen b
    /\ Column b' = Column b
    /\ List.length (Value b') = (List.length (Value b) + List.length l)%nat
    /\ Forall (fun v => (1 <= List.length (Val v))%nat) (Value b').
Proof.
  induction l as [| i l IH]; intros b Hb; cbv zeta.
  - simpl. repeat split; auto.
  - cbn [fold_left].
    destruct (Values_fields b (VInt (Z.of_nat i)) [VInt 0]) as (Et & Ep & Er & Ec & El).
    destruct (IH (Values b (VInt (Z.of_nat i)) [VInt 0])) as (Ht & Hp & Hr & Hc & Hl & Hf).
    { apply Values_rows; [simpl; lia | exact Hb]. }
    rewrite Ht, Hp, Hr, Hc, Hl, El. repeat split; auto; simpl; lia.
Qed.

Lemma manyRows_well_formed (n : nat) (k : Z) :
  well_formed (SetRunLen (manyRows n) k)
  /\ List.length (Value (SetRunLen (manyRows n) k)) = n.
Proof.
  destruct (manyRows_inv (seq 1 n) (Columns (CaseUpdate "t") "id" ["a"]))
    as (Ht & Hp & Hr & Hc & Hl & Hf); [constructor |].
  fold (manyRows n) in *. rewrite length_seq in Hl. simpl in Hl.
  split; [| exact Hl].
  constructor; cbn [SetRunLen set_RunLen Table Column Value].
  - rewrite Ht. discriminate.
  - rewrite Hc. discriminate.
  - rewrite Hc. repeat constructor. discriminate.
  - rewrite Hc. exact Hf.
Qed.

(** C2, as stated, fails: with [RunLen] set to 0, Build on 1001 rows renders
    a window of 1000 rows and leaves one row behind; the window is not
    unbounded. *)
Lemma RunLen_zero_window_is_bounded :
  let b := SetRunLen (manyRows 1001) 0 in
  RunLen b = 0%Z /\ List.length (Value b) = 1001 /\
  exists b' buf',
    Build backquote b NewBuffer = Ret (b', buf', None)
    /\ List.length (Value b') = 1 /\ RunLen b' = 1000%Z.
Proof.
  cbv zeta. destruct (manyRows_well_formed 1001 0) as [Hwf Hlen].
  split; [reflexivity |]. split; [exact Hlen |].
  eexists. eexists. split.
  - apply Build_spec; [exact Hwf | cbn; lia].
  - cbn [Value set_Value RunLen set_RunLen]. split.
    + rewrite length_skipn, Hlen. reflexivity.
    + reflexivity.
Qed.

(* ------------------------------------------------------------------ *)
(** * The columns of Build *)

Lemma spec_column_plus (d : Dialect) pk win (name : string) :
  spec_column d pk win (name ++ "+") =
  QuoteIdent d name ++ " = " ++ QuoteIdent d name ++ " + " ++ spec_case d pk win.
Proof. unfold spec_column. rewrite strip_marker_snoc. reflexivity. Qed.

Lemma spec_column_minus (d : Dialect) pk win (name : string) :
  spec_column d pk win (name ++ "-") =
  QuoteIdent d name ++ " = " ++ QuoteIdent d name ++ " - " ++ spec_case d pk win.
Proof. unfold spec_column. rewrite strip_marker_snoc. reflexivity. Qed.

Lemma spec_column_plain (d : Dialect) pk win (name : string) (c : ascii) :
  c <> "+"%char -> c <> "-"%char ->
  spec_column d pk win (name ++ String c "") =
  QuoteIdent d (name ++ String c "") ++ " = " ++ spec_case d pk win.
Proof.
  intros Hp Hm. unfold spec_column. rewrite strip_marker_snoc.
  destruct (Ascii.eqb_spec c "+"); [contradiction |].
  destruct (Ascii.eqb_spec c "-"); [contradiction |]. reflexivity.
Qed.

(** C5: Build, on a statement it can render, writes the columns of the SET
    list separated by [", "], each as [spec_column] has it over the window:
    a name ending in [+] as [col = col + CASE ... END], a name ending in [-]
    as [col = col - CASE ... END], the marker stripped from the identifier,
    and any other name as [col = CASE ... END]. *)
Theorem Build_renders_columns (d : Dialect) (b : CaseUpdateStmt) (buf : Buffer) :
  well_formed b -> (0 <= RunLen b)%Z ->
  let pk := PKey b in
  let win := window (effRunLen b) (Value b) in
  (exists b' buf',
      Build d b buf = Ret (b', buf', None)
      /\ buf_str buf' =
         buf_str buf ++ "UPDATE " ++ QuoteIdent d (Table b) ++ " SET "
           ++ join ", " (map (spec_column d pk win) (Column b))
           ++ " WHERE " ++ QuoteIdent d pk ++ " IN ("
           ++ join ", " (map (fun _ => " ? ") win) ++ " )")
  /\ (forall name,
         spec_column d pk win (name ++ "+") =
         QuoteIdent d name ++ " = " ++ QuoteIdent d name ++ " + "
           ++ " CASE " ++ QuoteIdent d pk
           ++ concat_str (map (fun _ => " WHEN ? THEN ? ") win) ++ " END ")
  /\ (forall name,
         spec_column d pk win (name ++ "-") =
         QuoteIdent d name ++ " = " ++ QuoteIdent d name ++ " - "
           ++ " CASE " ++ QuoteIdent d pk
           ++ concat_str (map (fun _ => " WHEN ? THEN ? ") win) ++ " END ")
  /\ (forall name c,
         c <> "+"%char -> c <> "-"%char ->
         spec_column d pk win (name ++ String c "") =
         QuoteIdent d (name ++ String c "") ++ " = "
           ++ " CASE " ++ QuoteIdent d pk
           ++ concat_str (map (fun _ => " WHEN ? THEN ? ") win) ++ " END ").
Proof.
  intros Hwf Hk pk win. split; [| split; [| split]].
  - eexists. eexists. split; [apply Build_spec; assumption |].
    cbn [buf_str buf_app]. reflexivity.
  - intros name. apply spec_column_plus.
  - intros name. apply spec_column_minus.
  - intros name c Hp Hm. now apply spec_column_plain.
Qed.

Lemma Build_renders_columns_witness :
  let b := SetRunLen
             (Values (Values (Columns (CaseUpdate "t") "id" ["a"; "n+"; "m-"])
                             (VInt 1) [VStr "x"; VInt 5; VInt 2])
                     (VInt 2) [VStr "y"; VInt 6; VInt 3]) 1 in
  well_formed b /\ (0 <= RunLen b)%Z
  /\ exists b' buf',
      Build backquote b NewBuffer = Ret (b', buf', None)
      /\ buf_str buf' =
         "UPDATE `t` SET `a` =  CASE `id` WHEN ? THEN ?  END , `n` = `n` +  CASE `id` WHEN ? THEN ?  END , `m` = `m` -  CASE `id` WHEN ? THEN ?  END  WHERE `id` IN ( ?  )".
Proof.
  cbv zeta.
  assert (Hwf : well_formed
    (SetRunLen
       (Values (Values (Columns (CaseUpdate "t") "id" ["a"; "n+"; "m-"])
                       (VInt 1) [VStr "x"; VInt 5; VInt 2])
               (VInt 2) [VStr "y"; VInt 6; VInt 3]) 1)).
  { constructor; simpl; try discriminate; repeat constructor; try discriminate;
      simpl; lia. }
  split; [exact Hwf |]. split; [simpl; lia |].
  destruct (Build_renders_columns backquote _ NewBuffer Hwf ltac:(simpl; lia))
    as [(b' & buf' & HB & Hs) _].
  exists b', buf'. split; [exact HB |]. rewrite Hs. reflexivity.
Defined.

(* ------------------------------------------------------------------ *)
(** * Panics of Build *)

(** Build past its two guards. *)
Lemma Build_guarded (d : Dialect) (b : CaseUpdateStmt) (buf : Buffer) :
  Table b <> "" -> Column b <> [] ->
  Build d b buf =
  let b0 := set_RunLen b (effRunLen b) in
  match columnLoop d b0 0 (Column b)
          (WriteString (WriteString (WriteString buf "UPDATE ")
                                    (QuoteIdent d (Table b))) " SET ") with
  | Panic p => Panic p
  | Ret buf1 =>
      match (if ((effRunLen b <? Z.of_nat (List.length (Value b)))%Z
                 && negb (effRunLen b =? 0)%Z)%bool
             then slice_from (Value b) (effRunLen b) else Ret []) with
      | Panic p => Panic p
      | Ret rest =>
          Ret (set_Value b0 rest,
               WriteString
                 (inListLoop 0 (whereKeyLoop (effRunLen b) 0 (Value b) [])
                    (WriteString
                       (WriteString (WriteString buf1 " WHERE ")
                                    (QuoteIdent d (PKey b))) " IN (")) " )",
               None)
      end
  end.
Proof.
  intros Ht Hc. unfold Build, effRunLen.
  destruct (Z.eqb_spec (RunLen b) 0) as [E | E].
  - cbn [Table Column RunLen Value PKey set_RunLen].
    destruct (String.eqb_spec (Table b) ""); [contradiction |].
    destruct (Column b) eqn:EC; [contradiction |]. reflexivity.
  - destruct (String.eqb_spec (Table b) ""); [contradiction |].
    destruct (Column b) eqn:EC; [contradiction |].
    cbn [List.length Nat.eqb]. destruct b; cbn in *. subst. reflexivity.
Qed.

Lemma whenLoop_panic (runLen : Z) (i : nat) (rows : list CaseUpdateValue) :
  forall x buf p,
    whenLoop runLen i x rows buf = Panic p -> exists j n, p = IndexOutOfRange j n.
Proof.
  induction rows as [| v rest IH]; intros x buf p H; [discriminate |].
  cbn [whenLoop] in H. destruct (window_break runLen x); [discriminate |].
  unfold slice_index in H. destruct (nth_error (Val v) i).
  - eapply IH; eassumption.
  - inversion H. eauto.
Qed.

Lemma columnHead_empty (d : Dialect) (buf : Buffer) :
  columnHead d "" buf = Panic (IndexOutOfRange (-1) 0).
Proof. reflexivity. Qed.

Lemma columnLoop_empty_name (d : Dialect) (b : CaseUpdateStmt) (cols : list string) :
  In "" cols ->
  forall i buf, exists j n, columnLoop d b i cols buf = Panic (IndexOutOfRange j n).
Proof.
  induction cols as [| col rest IH]; intros Hin i buf; [contradiction |].
  cbn [columnLoop]. destruct (string_dec col "") as [-> | Hne].
  - rewrite columnHead_empty. eauto.
  - destruct Hin as [E | Hin]; [congruence |].
    rewrite (columnHead_spec _ _ _ Hne).
    match goal with |- context [whenLoop ?k ?i ?x ?r ?bf] =>
      destruct (whenLoop k i x r bf) as [buf' | p] eqn:Hw end.
    + apply IH. exact Hin.
    + destruct (whenLoop_panic _ _ _ _ _ _ Hw) as (j & n & ->). eauto.
Qed.

Lemma columnLoop_empty_name_first (d : Dialect) (b : CaseUpdateStmt) (cols : list string) :
  In "" cols ->
  forall i buf,
    Forall (fun v => (i + List.length cols <= List.length (Val v))%nat) (Value b) ->
    columnLoop d b i cols buf = Panic (IndexOutOfRange (-1) 0).
Proof.
  induction cols as [| col rest IH]; intros Hin i buf Hrows; [contradiction |].
  cbn [columnLoop]. destruct (string_dec col "") as [-> | Hne].
  - now rewrite columnHead_empty.
  - destruct Hin as [E | Hin]; [congruence |].
    rewrite (columnHead_spec _ _ _ Hne), whenLoop_spec.
    + apply IH; [exact Hin |].
      eapply Forall_impl; [| exact Hrows]. simpl; intros; lia.
    + eapply Forall_impl; [| exact Hrows]. simpl; intros; lia.
Qed.

(** C9: Build is not total.  Whenever the table is named and some entry of
    [Column] is the empty string, Build panics on an index out of range
    instead of returning an error; and when every row has a value for every
    column, the panic is the one of [col[len(col)-1]] on the empty name:
    index -1 with length 0. *)
Theorem Build_empty_column_name_panics (d : Dialect) (b : CaseUpdateStmt) (buf : Buffer) :
  Table b <> "" -> In "" (Column b) ->
  (exists i n, Build d b buf = Panic (IndexOutOfRange i n))
  /\ (Forall (fun v => (List.length (Column b) <= List.length (Val v))%nat) (Value b) ->
      Build d b buf = Panic (IndexOutOfRange (-1) 0)).
Proof.
  intros Ht Hin.
  assert (Hc : Column b <> []) by (destruct (Column b); [contradiction | discriminate]).
  rewrite (Build_guarded _ _ _ Ht Hc). cbv zeta. split.
  - match goal with |- context [columnLoop ?d ?b0 ?i ?c ?bf] =>
      destruct (columnLoop_empty_name d b0 c Hin i bf) as (j & n & ->) end.
    eauto.
  - intros Hrows. rewrite columnLoop_empty_name_first; auto.
Qed.

Lemma Build_empty_column_name_panics_witness :
  let b := Values (Columns (CaseUpdate "t") "id" ["a"; ""])
                  (VInt 1) [VStr "x"; VStr "y"] in
  Table b <> "" /\ In "" (Column b) /\ Column b <> []
  /\ Build backquote b NewBuffer = Panic (IndexOutOfRange (-1) 0).
Proof.
  cbv zeta. split; [discriminate |]. split; [simpl; auto |].
  split; [discriminate |].
  apply (Build_empty_column_name_panics backquote
           (Values (Columns (CaseUpdate "t") "id" ["a"; ""])
                   (VInt 1) [VStr "x"; VStr "y"]) NewBuffer).
  - discriminate.
  - simpl; auto.
  - repeat constructor.
Defined.

(** C10, as stated, fails: with a negative [RunLen] and no table named,
    Build returns [ErrTableNotSpecified] and does not panic. *)
Lemma Build_negative_RunLen_without_table_returns :
  let b := SetRunLen (Values (Columns (CaseUpdate "") "id" ["a"]) (VInt 1) [VStr "x"])
                     (-1) in
  (RunLen b < 0)%Z
  /\ Build backquote b NewBuffer = Ret (b, NewBuffer, Some ErrTableNotSpecified)
  /\ is_panic (Build backquote b NewBuffer) = false.
Proof. cbv zeta. repeat split. Qed.

(** C10, amended: for every statement with a negative [RunLen] whose table
    is named and whose column list is not empty, Build panics; and when no
    column name is empty and every row has a value for every column, so that
    the column loop ends, the panic is the one of the slice expression
    [Value[RunLen:]], evaluated with the negative [RunLen]. *)
Theorem Build_negative_RunLen_panics (d : Dialect) (b : CaseUpdateStmt) (buf : Buffer) :
  (RunLen b < 0)%Z -> Table b <> "" -> Column b <> [] ->
  (exists p, Build d b buf = Panic p)
  /\ (well_formed b ->
      Build d b buf =
      Panic (SliceBoundsOutOfRange (RunLen b) (Z.of_nat (List.length (Value b))))).
Proof.
  intros Hk Ht Hc. rewrite (Build_guarded _ _ _ Ht Hc). cbv zeta.
  assert (Ek : effRunLen b = RunLen b).
  { unfold effRunLen. destruct (Z.eqb_spec (RunLen b) 0); [lia | reflexivity]. }
  rewrite Ek.
  assert (Hs : (if ((RunLen b <? Z.of_nat (List.length (Value b)))%Z
                    && negb (RunLen b =? 0)%Z)%bool
                then slice_from (Value b) (RunLen b) else Ret [])
               = Panic (SliceBoundsOutOfRange (RunLen b)
                                              (Z.of_nat (List.length (Value b))))).
  { destruct (Z.ltb_spec (RunLen b) (Z.of_nat (List.length (Value b)))); [| lia].
    destruct (Z.eqb_spec (RunLen b) 0); [lia |]. cbn [andb negb].
    unfold slice_from. destruct (Z.ltb_spec (RunLen b) 0); [| lia]. reflexivity. }
  rewrite Hs. split.
  - match goal with |- context [columnLoop ?d ?b0 ?i ?c ?bf] =>
      destruct (columnLoop d b0 i c bf) end; eauto.
  - intros [_ _ Hn Hr]. rewrite columnLoop_spec; auto.
Qed.

Lemma Build_negative_RunLen_panics_witness :
  let b := SetRunLen (Values (Columns (CaseUpdate "t") "id" ["a"]) (VInt 1) [VStr "x"])
                     (-1) in
  (RunLen b < 0)%Z /\ Table b <> "" /\ Column b <> [] /\ well_formed b
  /\ Build backquote b NewBuffer = Panic (SliceBoundsOutOfRange (-1) 1).
Proof.
  cbv zeta.
  assert (Hwf : well_formed
    (SetRunLen (Values (Columns (CaseUpdate "t") "id" ["a"]) (VInt 1) [VStr "x"]) (-1))).
  { constructor; simpl; try discriminate; repeat constructor; discriminate. }
  split; [simpl; lia |]. split; [discriminate |]. split; [discriminate |].
  split; [exact Hwf |].
  refine (proj2 (Build_negative_RunLen_panics backquote _ NewBuffer _ _ _) Hwf);
    [simpl; lia | discriminate | discriminate].
Defined.

(* ------------------------------------------------------------------ *)
(** * Exec *)

Lemma Forall_skipn_rows {A} (P : A -> Prop) (n : nat) (l : list A) :
  Forall P l -> Forall P (skipn n l).
Proof.
  intros H. rewrite <- (firstn_skipn n l) in H.
  apply Forall_app in H. tauto.
Qed.

Lemma well_formed_skipn (b : CaseUpdateStmt) (n : nat) :
  well_formed b -> well_formed (set_Value b (skipn n (Value b))).
Proof.
  intros [Ht Hc Hn Hr]. constructor; cbn [set_Value Table Column Value]; auto.
  now apply Forall_skipn_rows.
Qed.

Lemma count_DbExec_app (t1 t2 : list Action) :
  count_DbExec (t1 ++ t2) = (count_DbExec t1 + count_DbExec t2)%nat.
Proof. unfold count_DbExec. now rewrite filter_app, length_app. Qed.

Lemma ceil_div_zero (k : Z) : (0 < k)%Z -> ceil_div 0 k = 0%Z.
Proof. intros H. unfold ceil_div. apply Z.div_small. lia. Qed.

Lemma ceil_div_last (n k : Z) : (0 < n <= k)%Z -> ceil_div n k = 1%Z.
Proof.
  intros H. unfold ceil_div. symmetry.
  apply (Z.div_unique_pos (n + k - 1) k 1 (n - 1)); lia.
Qed.

Lemma ceil_div_step (n k : Z) : (0 < k)%Z -> ceil_div n k = (1 + ceil_div (n - k) k)%Z.
Proof.
  intros H. unfold ceil_div.
  replace (n + k - 1)%Z with ((n - k + k - 1) + 1 * k)%Z by lia.
  rewrite Z.div_add by lia. lia.
Qed.

(** One cycle of a statement made by a session or a transaction: [exec]
    with the environment, and Build with its dialect. *)
Ltac stmt_bound H :=
  let Hr := fresh "Hr" in
  let He := fresh "He" in
  let Hd := fresh "Hd" in
  pose proof H as (Hr & He & Hd);
  unfold CaseUpdateStmt_ExecContext, exec_stmt;
  rewrite Hr, He;
  unfold exec, bind, interpolate_builder;
  cbn [encodePlaceholder caseUpdateBuilder];
  rewrite Hd;
  clear Hr He Hd.

(** Build and the setters leave the embedded interfaces as they are. *)
Lemma session_bound_set (b : CaseUpdateStmt) (k : Z) (rows : list CaseUpdateValue) :
  session_bound b -> session_bound (set_Value (set_RunLen b k) rows).
Proof. intros H. exact H. Qed.

(* ------------------------------------------------------------------ *)
(** * Exec ends *)

Lemma Build_shrinks (d : Dialect) (b b' : CaseUpdateStmt) (buf buf' : Buffer) :
  Build d b buf = Ret (b', buf', None) -> Value b <> [] ->
  (List.length (Value b') < List.length (Value b))%nat.
Proof.
  intros H Hne.
  destruct (string_dec (Table b) "") as [Et | Et].
  { unfold Build in H. destruct (RunLen b =? 0)%Z; cbn [Table set_RunLen] in H;
      rewrite Et in H; discriminate. }
  destruct (Column b) as [| c cs] eqn:Ec.
  { unfold Build in H. destruct (RunLen b =? 0)%Z;
      cbn [Table Column set_RunLen] in H;
      destruct (Table b =? ""); try discriminate; rewrite Ec in H; discriminate. }
  rewrite Build_guarded in H by (auto; rewrite Ec; discriminate).
  cbv zeta in H.
  match type of H with context [columnLoop ?d ?b0 ?i ?c ?bf] =>
    destruct (columnLoop d b0 i c bf) end; [| discriminate].
  assert (Hlen : (0 < List.length (Value b))%nat).
  { destruct (Value b); [contradiction | simpl; lia]. }
  destruct (Z.ltb_spec (effRunLen b) (Z.of_nat (List.length (Value b)))) as [Hl | Hl];
    destruct (Z.eqb_spec (effRunLen b) 0) as [Hz | Hz]; cbn [andb negb] in H.
  - inversion H; subst. cbn [Value set_Value]. simpl. exact Hlen.
  - unfold slice_from in H.
    destruct (Z.ltb_spec (effRunLen b) 0); cbn [orb] in H; [discriminate |].
    destruct (Z.ltb_spec (Z.of_nat (List.length (Value b))) (effRunLen b));
      [discriminate |].
    inversion H; subst. cbn [Value set_Value]. rewrite length_skipn. lia.
  - inversion H; subst. cbn [Value set_Value]. simpl. exact Hlen.
  - inversion H; subst. cbn [Value set_Value]. simpl. exact Hlen.
Qed.

Section ExecEnds.

Context {DbState Result Rows CacheState Dest : Type}.
Context {runner : Runner DbState Result Rows}.
Context {cache : CustomCache CacheState}.
Context {log : EventReceiver}.
Variable d : Dialect.
Variable interpolate : string -> list iface -> Interp.

Local Abbreviation World := (World DbState CacheState Dest).

Hypothesis log_returns_err : returns_err log.

(** A cycle that returns nil has removed a row. *)
Lemma ExecContext_nil_shrinks (b b' : CaseUpdateStmt) (w w' : World) r :
  CaseUpdateStmt_ExecContext d interpolate b w = Ret (b', r, None, w') ->
  Value b <> [] ->
  (List.length (Value b') < List.length (Value b))%nat.
Proof.
  intros HE Hne.
  unfold CaseUpdateStmt_ExecContext, exec_stmt in HE.
  destruct (b_runner b); [discriminate |].
  destruct (b_EventReceiver b).
  { unfold exec_nil_receiver, bind, interpolate_builder, nil_call in HE.
    destruct (encodePlaceholder b) as [[b1 i] | p]; [| discriminate].
    destruct (ierr i); [discriminate |].
    destruct (runner_ExecContext (isql i) (ivalue i) w) as [[[x e1] w1] | p];
      [| discriminate].
    destruct e1; discriminate. }
  unfold exec, bind, interpolate_builder in HE.
  cbn [encodePlaceholder caseUpdateBuilder] in HE.
  destruct (b_Dialect b).
  { unfold Build_nil_Dialect in HE.
    destruct (Table (if (RunLen b =? 0)%Z then set_RunLen b 1000 else b) =? "");
      [cbn in HE; rewrite log_returns_err in HE; discriminate |].
    destruct (List.length (Column (if (RunLen b =? 0)%Z then set_RunLen b 1000 else b))
              =? 0)%nat;
      [cbn in HE; rewrite log_returns_err in HE; discriminate | discriminate]. }
  destruct (Build d b NewBuffer) as [[[b1 buf1] [err |]] | p] eqn:HB;
    [| | discriminate].
  - cbn in HE. rewrite log_returns_err in HE. discriminate.
  - apply (Build_shrinks _ _ _ _ _ HB) in Hne.
    destruct (ierr (interpolate (buf_str buf1) (buf_val buf1))) as [e0 |].
    + unfold log_EventErrKv, emit, bind, ret in HE. cbn in HE.
      destruct (EventErrKv "dbr.exec.interpolate" e0
                  (isql (interpolate (buf_str buf1) (buf_val buf1))));
        inversion HE; subst; exact Hne.
    + unfold runner_ExecContext in HE.
      destruct (ExecContext (w_db w) (isql (interpolate (buf_str buf1) (buf_val buf1)))
                  (ivalue (interpolate (buf_str buf1) (buf_val buf1))))
        as [[db' x] [e1 |]].
      * unfold log_EventErrKv, emit, bind, ret in HE. cbn in HE.
        destruct (EventErrKv "dbr.exec.exec" e1
                    (isql (interpolate (buf_str buf1) (buf_val buf1))));
          inversion HE; subst; exact Hne.
      * cbn in HE. inversion HE; subst; exact Hne.
Qed.

Lemma Exec_loop_total (fuel : nat) :
  forall (b : CaseUpdateStmt) (w : World),
    (List.length (Value b) <= fuel)%nat ->
    Exec_loop d interpolate fuel b w <> None.
Proof.
  induction fuel as [| fuel IH]; intros b w Hlen.
  - destruct (Value b) eqn:E; [| simpl in Hlen; lia].
    cbn [Exec_loop]. rewrite E. discriminate.
  - cbn [Exec_loop]. destruct (Value b) as [| v rest] eqn:E; [discriminate |].
    destruct (CaseUpdateStmt_ExecContext d interpolate b w)
      as [[[[b' r] [e |]] w'] | p] eqn:HE; try discriminate.
    apply IH. apply ExecContext_nil_shrinks in HE; [| rewrite E; discriminate].
    rewrite E in HE. simpl in HE, Hlen. lia.
Qed.

(** X10: with a receiver that hands back the errors it is given, the loop
    of Exec ends on every statement and in every world, whatever the driver
    and the interpolator do: as many cycles as there are rows are enough,
    since a cycle that returns nil has removed a row. *)
Lemma Exec_total (b : CaseUpdateStmt) (w : World) :
  Exec d interpolate b w <> None.
Proof.
  unfold Exec.
  apply Exec_loop_total.
  lia.
Qed.

End ExecEnds.

(* ------------------------------------------------------------------ *)
(** * exec: invalidation on write *)

Section EngineProperties.

Context {DbState Result Rows CacheState Dest B : Type}.
Context {runner : Runner DbState Result Rows}.
Context {cache : CustomCache CacheState}.
Context {log : EventReceiver}.
Context {dst : Destination Dest Rows}.
Context {bld : Builder B}.

Local Abbreviation World := (World DbState CacheState Dest).

(** C7: when the driver call of [exec] succeeds and the directive is enabled
    with a key that is not empty, the key is deleted from the cache, right
    after the driver call; a failure of the delete is reported to the
    receiver and nothing more, and the call returns the driver's result with
    a nil error. *)
Theorem exec_deletes_cache_key (builder builder' : B) (customs : list Custom)
        (w : World) (it : Interp) (db' : DbState) (result : Result) :
  encodePlaceholder builder = Ret (builder', it) ->
  ierr it = None ->
  ExecContext (w_db w) (isql it) (ivalue it) = (db', result, None) ->
  isCache (firstCustom customs) = true ->
  cacheKey (firstCustom customs) <> "" ->
  let key := cacheKey (firstCustom customs) in
  exists c' derr,
    cache_Del (w_cache w) key = (c', derr)
    /\ exec builder customs w =
       Ret (builder', Some result, None,
            {| w_db := db'; w_cache := c'; w_dest := w_dest w;
               w_trace :=
                 (w_trace w ++ [DbExec (isql it) (ivalue it); CacheDel key]
                    ++ match derr with
                       | Some e => [LogErr "dbr.exec.cache.del" e (isql it)]
                       | None => []
                       end
                    ++ [LogTiming "dbr.exec" (isql it)])%list |}).
Proof.
  intros HB Hi HX Hc Hk key.
  destruct (cache_Del (w_cache w) key) as [c' derr] eqn:HD.
  exists c', derr. split; [reflexivity |].
  unfold exec, bind, interpolate_builder. rewrite HB, Hi.
  unfold runner_ExecContext. rewrite HX. cbn iota beta.
  rewrite Hc. fold key.
  destruct (String.eqb_spec key "") as [E | _]; [contradiction |]. cbn [negb].
  unfold custom_cache_Del, bind. cbn [w_cache]. rewrite HD.
  destruct derr as [e |]; cbn; rewrite <- !app_assoc; reflexivity.
Qed.

End EngineProperties.

Lemma exec_deletes_cache_key_witness :
  let customs := [{| isCount := false; isCache := true; cacheKey := "users";
                     cacheExpire := 60 |}] in
  let it := {| isql := "UPDATE users SET n = 1"; ivalue := []; ierr := None |} in
  exec (runner := Example.okRunner) (cache := Example.brokenCache)
       (log := NullEventReceiver) (bld := Example.constBuilder)
       it customs (Example.world0 tt)
  = Ret (it, Some 1%Z, None,
         {| w_db := 1; w_cache := tt; w_dest := [];
            w_trace := [DbExec "UPDATE users SET n = 1" []; CacheDel "users";
                        LogErr "dbr.exec.cache.del" (errors_New "cache down")
                               "UPDATE users SET n = 1";
                        LogTiming "dbr.exec" "UPDATE users SET n = 1"] |}).
Proof.
  cbv zeta.
  destruct (exec_deletes_cache_key
              (runner := Example.okRunner) (cache := Example.brokenCache)
              (log := NullEventReceiver) (bld := Example.constBuilder)
              {| isql := "UPDATE users SET n = 1"; ivalue := []; ierr := None |}
              {| isql := "UPDATE users SET n = 1"; ivalue := []; ierr := None |}
              [{| isCount := false; isCache := true; cacheKey := "users";
                  cacheExpire := 60 |}]
              (Example.world0 (C := unit) tt) _ 1 1%Z
              eq_refl eq_refl eq_refl eq_refl ltac:(discriminate))
    as (c' & derr & HD & HE).
  rewrite HE. cbn in HD. inversion HD; subst. reflexivity.
Defined.

(* ------------------------------------------------------------------ *)
(** * query: the cache key, cache failures, the count on a miss *)

Section QueryProperties.

Context {DbState Result Rows CacheState Dest B : Type}.
Context {runner : Runner DbState Result Rows}.
Context {cache : CustomCache CacheState}.
Context {log : EventReceiver}.
Context {dst : Destination Dest Rows}.
Context {bld : Builder B}.

Local Abbreviation World := (World DbState CacheState Dest).


Ltac unfold_engine :=
  unfold query_db, queryCount, queryRows, query_store, load_dest, get_dest,
    log_EventErrKv, log_TimingKv, emit, custom_cache_Set, runner_QueryContext,
    interpolate_builder, bind, ret, add_trace.

Ltac split_match :=
  repeat match goal with
         | |- context [match ?x with _ => _ end] =>
             lazymatch x with
             | context [match _ with _ => _ end] => fail
             | _ => destruct x eqn:?;
                    cbn [w_db w_cache w_dest w_trace observable fst snd]
             end
         end.

(** The events already reported do not change what the database path
    returns or does to the database, the cache and the destination. *)
Lemma query_db_trace_frame (custom : Custom) (key : string) (builder : B)
      (w : World) (t : list Action) :
  observable (query_db custom key builder (add_trace w t))
  = observable (query_db custom key builder w).
Proof.
  unfold_engine. cbn [w_db w_cache w_dest w_trace].
  split_match; reflexivity.
Qed.

(** Past its interpolation the database path sends the statement to the
    driver, wrapped when a count is asked for. *)
Lemma query_db_issues_query (custom : Custom) (key : string)
      (builder builder' : B) (it : Interp) (w : World) :
  returns_err log ->
  encodePlaceholder builder = Ret (builder', it) -> ierr it = None ->
  exists b n err w',
    query_db custom key builder w = Ret (b, n, err, w')
    /\ In (DbQuery (if isCount custom then countWrap (isql it) else isql it)
                   (ivalue it))
          (w_trace w').
Proof.
  intros Hret HB Hi. unfold_engine. rewrite HB, Hi.
  cbn [w_db w_cache w_dest w_trace].
  split_match;
    try (exfalso;
         match goal with
         | H : EventErrKv _ _ _ = None |- _ => rewrite Hret in H; discriminate H
         end);
    (do 4 eexists; split; [reflexivity |];
     cbn [w_trace]; rewrite ?in_app_iff; cbn [In]; tauto).
Qed.

(** On a miss [query] goes on with the database path, in the world as the
    cache read left it. *)
Lemma query_cache_miss (builder builder' : B) (customs : list Custom) (w : World)
      (it : Interp) (c' : CacheState) (reply : list Byte.byte) :
  let custom := firstCustom customs in
  let key := cacheKey custom in
  isCache custom = true -> key <> "" ->
  encodePlaceholder builder = Ret (builder', it) -> ierr it = None ->
  cache_GetBytes (w_cache w) key = (c', (reply, false, None)) ->
  query builder customs w =
  query_db custom key builder'
           {| w_db := w_db w; w_cache := c'; w_dest := w_dest w;
              w_trace := (w_trace w ++ [CacheGet key])%list |}.
Proof.
  intros custom key Hc Hk HB Hi HG.
  unfold query, getSQL, bind, interpolate_builder, ret. fold custom.
  rewrite Hc, HB, Hi. fold key.
  destruct (String.eqb_spec key "") as [E | _]; [contradiction |].
  unfold custom_cache_GetBytes. rewrite HG. reflexivity.
Qed.

(** C3, amended: with caching enabled, when [GetBytes] fails or the bytes it
    returns do not decode, [query] reports the failure to the receiver and
    goes on with the database path, in the world the failed attempt left:
    its outcome is the outcome of that path, so the cache failure is not
    what the call returns.  When the failed attempt left the destination as
    it was (so always for a backend error and for a count), the values
    returned and the states of database, cache and destination are those of
    the run in which the cache read was a miss ([query_cache_miss]).  And
    the database path, once its statement renders and with a receiver that
    hands back the errors it is given, sends the query to the driver. *)
Theorem query_cache_failure_falls_through
        (builder builder' : B) (customs : list Custom) (w : World) (it : Interp)
        (c' : CacheState) (reply : list Byte.byte) (exist_ : bool)
        (cerr : option error) (eventName : string) (e : error) (dest' : Dest) :
  let custom := firstCustom customs in
  let key := cacheKey custom in
  let sql := if isCount custom then countWrap (isql it) else isql it in
  isCache custom = true -> key <> "" ->
  encodePlaceholder builder = Ret (builder', it) -> ierr it = None ->
  cache_GetBytes (w_cache w) key = (c', (reply, exist_, cerr)) ->
  cache_read_fails custom reply exist_ cerr (w_dest w) eventName e dest' ->
  let missed := {| w_db := w_db w; w_cache := c'; w_dest := w_dest w;
                   w_trace := (w_trace w ++ [CacheGet key])%list |} in
  let failed := {| w_db := w_db w; w_cache := c'; w_dest := dest';
                   w_trace := (w_trace w ++ [CacheGet key;
                                             LogErr eventName e sql])%list |} in
  query builder customs w = query_db custom key builder' failed
  /\ (dest' = w_dest w ->
      observable (query builder customs w)
      = observable (query_db custom key builder' missed))
  /\ (returns_err log ->
      forall builder'' it2,
        encodePlaceholder builder' = Ret (builder'', it2) -> ierr it2 = None ->
        exists b n err w',
          query builder customs w = Ret (b, n, err, w')
          /\ In (DbQuery (if isCount custom then countWrap (isql it2) else isql it2)
                         (ivalue it2))
                (w_trace w')).
Proof.
  intros custom key sql Hc Hk HB Hi HG HF missed failed.
  assert (HQ : query builder customs w = query_db custom key builder' failed).
  { unfold query, getSQL, bind, interpolate_builder, ret. fold custom.
    rewrite Hc, HB, Hi. fold key. fold sql.
    destruct (String.eqb_spec key "") as [E | _]; [contradiction |].
    unfold custom_cache_GetBytes. rewrite HG.
    unfold failed, log_EventErrKv, emit, bind, ret.
    destruct HF as [e0 He | e0 He Hx Hn Hd | e0 d0 He Hx Hn Hd]; subst.
    - cbn. rewrite <- app_assoc. reflexivity.
    - rewrite Hn, Hd. cbn. rewrite <- app_assoc. reflexivity.
    - rewrite Hn. unfold decode_dest. cbn [w_dest]. rewrite Hd.
      cbn. rewrite <- app_assoc. reflexivity. }
  split; [exact HQ |]. split.
  - intros Hd. rewrite HQ.
    assert (E : failed = add_trace missed [LogErr eventName e sql]).
    { unfold failed, missed, add_trace. cbn [w_db w_cache w_dest w_trace].
      rewrite Hd, <- app_assoc. reflexivity. }
    rewrite E. apply query_db_trace_frame.
  - intros Hret builder'' it2 HB2 Hi2. rewrite HQ.
    exact (query_db_issues_query custom key builder' builder'' it2 failed Hret HB2 Hi2).
Qed.

(** C6: with caching enabled, a count asked for and a cache miss, [query]
    sends the driver the statement wrapped as
    [SELECT COUNT( * ) FROM (<sql>) AS count], takes the integer scanned from
    the first row as the count (0 when there is no row), and returns that
    count with a nil error.  When the count encodes, the bytes are stored
    under the cache key with the TTL of the directive, a failure of the store
    being reported only; when it does not encode, the failure is reported and
    nothing is stored. *)
Theorem query_count_miss_caches_count
        (builder b1 b2 : B) (customs : list Custom) (w : World) (it1 it2 : Interp)
        (c1 : CacheState) (reply : list Byte.byte) (db' : DbState) (rows : Rows) :
  let custom := firstCustom customs in
  let key := cacheKey custom in
  isCache custom = true -> isCount custom = true -> key <> "" ->
  encodePlaceholder builder = Ret (b1, it1) -> ierr it1 = None ->
  cache_GetBytes (w_cache w) key = (c1, (reply, false, None)) ->
  encodePlaceholder b1 = Ret (b2, it2) -> ierr it2 = None ->
  QueryContext (w_db w) (countWrap (isql it2)) (ivalue it2) = (db', rows, None) ->
  let sql := "SELECT COUNT(*) FROM (" ++ isql it2 ++ ") AS count" in
  let count := if rowsNext rows then rowsScanInt rows else 0%Z in
  match gobEncodeInt count with
  | (encoded, None) =>
      exists c2 serr,
        cache_Set c1 key encoded (cacheExpire custom) = (c2, serr)
        /\ query builder customs w =
           Ret (b2, count, None,
                {| w_db := db'; w_cache := c2; w_dest := w_dest w;
                   w_trace :=
                     (w_trace w
                        ++ [CacheGet key; DbQuery sql (ivalue it2);
                            CacheSet key encoded (cacheExpire custom)]
                        ++ match serr with
                           | Some e => [LogErr "dbr.select.cache.set" e sql]
                           | None => []
                           end
                        ++ [LogTiming "dbr.select" sql])%list |})
  | (_, Some e) =>
      query builder customs w =
      Ret (b2, count, None,
           {| w_db := db'; w_cache := c1; w_dest := w_dest w;
              w_trace :=
                (w_trace w
                   ++ [CacheGet key; DbQuery sql (ivalue it2);
                       LogErr "dbr.select.cache.encode" e sql;
                       LogTiming "dbr.select" sql])%list |})
  end.
Proof.
  intros custom key Hc Hn Hk HB1 Hi1 HG HB2 Hi2 HQ sql count.
  rewrite (query_cache_miss builder b1 customs w it1 c1 reply Hc Hk HB1 Hi1 HG).
  fold custom key. unfold_engine. rewrite Hn, HB2, Hi2.
  cbn [w_db w_cache w_dest w_trace]. unfold countWrap in *. rewrite HQ.
  fold sql. cbn iota beta. fold count. rewrite Hc.
  destruct (gobEncodeInt count) as [encoded [e |]].
  - cbn. rewrite <- !app_assoc. reflexivity.
  - cbn [negb andb w_cache w_db w_dest w_trace].
    destruct (cache_Set c1 key encoded (cacheExpire custom)) as [c2 serr] eqn:HS.
    exists c2, serr. split; [reflexivity |].
    destruct serr; cbn; rewrite <- !app_assoc; reflexivity.
Qed.

End QueryProperties.

Lemma query_cache_failure_falls_through_witness :
  let customs := [{| isCount := false; isCache := true; cacheKey := "users";
                     cacheExpire := 60 |}] in
  query (runner := Example.okRunner) (cache := Example.brokenCache)
        (log := NullEventReceiver) (dst := Example.sliceDest)
        (bld := Example.constBuilder)
        Example.selectUsers customs (Example.world0 tt)
  = Ret (Example.selectUsers, 1%Z, None,
         {| w_db := 1; w_cache := tt; w_dest := [3%Z];
            w_trace :=
              [CacheGet "users";
               LogErr "dbr.select.cache.get" (errors_New "cache down")
                      "SELECT * FROM users";
               DbQuery "SELECT * FROM users" [];
               CacheSet "users" [Byte.x01] 60;
               LogErr "dbr.select.cache.set" (errors_New "cache down")
                      "SELECT * FROM users";
               LogTiming "dbr.select" "SELECT * FROM users"] |}).
Proof.
  cbv zeta.
  destruct (query_cache_failure_falls_through
              (runner := Example.okRunner) (cache := Example.brokenCache)
              (log := NullEventReceiver) (dst := Example.sliceDest)
              (bld := Example.constBuilder)
              Example.selectUsers Example.selectUsers
              [{| isCount := false; isCache := true; cacheKey := "users";
                  cacheExpire := 60 |}]
              (Example.world0 tt) Example.selectUsers tt [] false
              (Some (errors_New "cache down"))
              "dbr.select.cache.get" (errors_New "cache down") []
              eq_refl ltac:(discriminate) eq_refl eq_refl eq_refl
              (backend_error _ _ _ _ eq_refl))
    as (HQ & _ & _).
  rewrite HQ. reflexivity.
Defined.

(** C3, as stated, fails: the result is not always as if the cache had
    missed.  The cached bytes are corrupted and the decoder has written an
    element into the destination when it gives up.  The failure is not
    returned and the database is queried, but the destination ends as
    [[99; 3]] and two bytes are cached, where the database path after a miss,
    in the same states of cache and database, leaves [[3]] and caches one
    byte. *)
Lemma query_failed_decode_differs_from_miss :
  let custom := {| isCount := false; isCache := true; cacheKey := "users";
                   cacheExpire := 60 |} in
  let w := Example.world0 [("users", [Byte.x00])] in
  let missed := {| w_db := 0; w_cache := [("users", [Byte.x00])];
                   w_dest := @nil Z; w_trace := [CacheGet "users"] |} in
  cache_GetBytes (CustomCache := Example.mapCache) (w_cache w) "users"
  = (w_cache w, ([Byte.x00], true, None))
  /\ gobDecodeDest (Destination := Faulty.junkDest) [Byte.x00] (w_dest w)
     = ([99%Z], Some (errors_New "corrupted"))
  /\ (exists w1,
         query (runner := Example.okRunner) (cache := Example.mapCache)
               (log := NullEventReceiver) (dst := Faulty.junkDest)
               (bld := Example.constBuilder) Example.selectUsers [custom] w
         = Ret (Example.selectUsers, 1%Z, None, w1)
         /\ w_dest w1 = [99%Z; 3%Z]
         /\ w_cache w1 = [("users", [Byte.x01; Byte.x01]); ("users", [Byte.x00])]
         /\ In (DbQuery "SELECT * FROM users" []) (w_trace w1))
  /\ (exists w2,
         query_db (runner := Example.okRunner) (cache := Example.mapCache)
                  (log := NullEventReceiver) (dst := Faulty.junkDest)
                  (bld := Example.constBuilder) custom "users"
                  Example.selectUsers missed
         = Ret (Example.selectUsers, 1%Z, None, w2)
         /\ w_dest w2 = [3%Z]
         /\ w_cache w2 = [("users", [Byte.x01]); ("users", [Byte.x00])])
  /\ observable
       (query (runner := Example.okRunner) (cache := Example.mapCache)
              (log := NullEventReceiver) (dst := Faulty.junkDest)
              (bld := Example.constBuilder) Example.selectUsers [custom] w)
     <> observable
          (query_db (runner := Example.okRunner) (cache := Example.mapCache)
                    (log := NullEventReceiver) (dst := Faulty.junkDest)
                    (bld := Example.constBuilder) custom "users"
                    Example.selectUsers missed).
Proof.
  cbv zeta. split; [reflexivity |]. split; [reflexivity |]. split; [| split].
  - exists {| w_db := 1;
              w_cache := [("users", [Byte.x01; Byte.x01]); ("users", [Byte.x00])];
              w_dest := [99%Z; 3%Z];
              w_trace :=
                [CacheGet "users";
                 LogErr "dbr.select.cache.decode" (errors_New "corrupted")
                        "SELECT * FROM users";
                 DbQuery "SELECT * FROM users" [];
                 CacheSet "users" [Byte.x01; Byte.x01] 60;
                 LogTiming "dbr.select" "SELECT * FROM users"] |}.
    split; [reflexivity |]. split; [reflexivity |].
    split; [reflexivity |]. cbn [w_trace In]. tauto.
  - exists {| w_db := 1;
              w_cache := [("users", [Byte.x01]); ("users", [Byte.x00])];
              w_dest := [3%Z];
              w_trace :=
                [CacheGet "users";
                 DbQuery "SELECT * FROM users" [];
                 CacheSet "users" [Byte.x01] 60;
                 LogTiming "dbr.select" "SELECT * FROM users"] |}.
    split; [reflexivity |]. split; reflexivity.
  - intros H. vm_compute in H. discriminate H.
Qed.

Lemma query_count_miss_caches_count_witness :
  let customs := [{| isCount := true; isCache := true; cacheKey := "users.count";
                     cacheExpire := 60 |}] in
  query (runner := Example.okRunner) (cache := Example.mapCache)
        (log := NullEventReceiver) (dst := Example.sliceDest)
        (bld := Example.constBuilder)
        Example.selectUsers customs (Example.world0 [])
  = Ret (Example.selectUsers, 3%Z, None,
         {| w_db := 1;
            w_cache := [("users.count", [Byte.x01; Byte.x01; Byte.x01])];
            w_dest := [];
            w_trace :=
              [CacheGet "users.count";
               DbQuery "SELECT COUNT(*) FROM (SELECT * FROM users) AS count" [];
               CacheSet "users.count" [Byte.x01; Byte.x01; Byte.x01] 60;
               LogTiming "dbr.select"
                         "SELECT COUNT(*) FROM (SELECT * FROM users) AS count"] |}).
Proof.
  cbv zeta.
  pose proof (query_count_miss_caches_count
                (runner := Example.okRunner) (cache := Example.mapCache)
                (log := NullEventReceiver) (dst := Example.sliceDest)
                (bld := Example.constBuilder)
                Example.selectUsers Example.selectUsers Example.selectUsers
                [{| isCount := true; isCache := true; cacheKey := "users.count";
                    cacheExpire := 60 |}]
                (Example.world0 []) Example.selectUsers Example.selectUsers
                [] [] 1 [3%Z]
                eq_refl eq_refl ltac:(discriminate) eq_refl eq_refl eq_refl
                eq_refl eq_refl eq_refl) as H.
  cbn in H. destruct H as (c2 & serr & HS & HQ).
  inversion HS; subst. exact HQ.
Defined.



(* ================================================================== *)
(** * Further properties of the builder *)

Lemma Build_unbuildable (d : Dialect) (b : CaseUpdateStmt) (buf : Buffer) :
  Table b = "" \/ Column b = [] ->
  Build d b buf =
  Ret (set_RunLen b (effRunLen b), buf,
       Some (if Table b =? "" then ErrTableNotSpecified else ErrColumnNotSpecified)).
Proof.
  intros H. unfold Build, effRunLen.
  destruct (Z.eqb_spec (RunLen b) 0) as [E | E];
    cbn [Table Column set_RunLen];
    destruct (String.eqb_spec (Table b) "") as [Et | Et];
    try reflexivity; try (destruct b; cbn in *; subst; reflexivity).
  - destruct H as [H | H]; [contradiction |]. rewrite H. reflexivity.
  - destruct H as [H | H]; [contradiction |]. rewrite H.
    destruct b; cbn in *; subst; reflexivity.
Qed.

(** X1: Build checks the table first and the columns second, and fails
    before it writes anything: with no table named it returns
    [ErrTableNotSpecified], with a table and no column it returns
    [ErrColumnNotSpecified]; in both cases the buffer and the rows are left
    as they were, and only the default of [RunLen] has been applied. *)
Theorem Build_missing_table_or_columns (d : Dialect) (b : CaseUpdateStmt) (buf : Buffer) :
  Table b = "" \/ Column b = [] ->
  Build d b buf =
  Ret (set_RunLen b (effRunLen b), buf,
       Some (if Table b =? "" then ErrTableNotSpecified else ErrColumnNotSpecified)).
Proof.
  intros H. unfold Build, effRunLen.
  destruct (Z.eqb_spec (RunLen b) 0) as [E | E];
    cbn [Table Column set_RunLen];
    destruct (String.eqb_spec (Table b) "") as [Et | Et];
    try reflexivity; try (destruct b; cbn in *; subst; reflexivity).
  - destruct H as [H | H]; [contradiction |]. rewrite H. reflexivity.
  - destruct H as [H | H]; [contradiction |]. rewrite H.
    destruct b; cbn in *; subst; reflexivity.
Qed.

Lemma Build_missing_table_or_columns_witness :
  let b := Values (Columns (CaseUpdate "") "id" []) (VInt 1) [] in
  (Table b = "" \/ Column b = [])
  /\ Build backquote b NewBuffer =
     Ret (set_RunLen b 1000, NewBuffer, Some ErrTableNotSpecified).
Proof.
  cbv zeta. split; [left; reflexivity |].
  rewrite (Build_missing_table_or_columns backquote
             (Values (Columns (CaseUpdate "") "id" []) (VInt 1) []) NewBuffer
             (or_introl eq_refl)).
  reflexivity.
Defined.

(** X2: [Values] keeps the keys accumulated so far, in their order, and adds
    the new key at the end; afterwards every row that carries the key holds
    the values just given, and the rows with another key are as they were. *)
Theorem Values_sets_latest_values (b : CaseUpdateStmt) (pk : iface) (value : list iface) :
  map Key (Value (Values b pk value)) = (map Key (Value b) ++ [Sprint pk])%list
  /\ (forall v, In v (Value (Values b pk value)) -> Key v = Sprint pk -> Val v = value)
  /\ (forall i v, nth_error (Value b) i = Some v -> Key v <> Sprint pk ->
                  nth_error (Value (Values b pk value)) i = Some v).
Proof.
  unfold Values. cbn [Value set_Value]. repeat split.
  - rewrite map_app, map_map. cbn [map Key]. f_equal.
    apply map_ext. intros v. destruct (String.eqb (Key v) (Sprint pk)); reflexivity.
  - intros v Hin Hk. apply in_app_or in Hin. destruct Hin as [Hin | Hin].
    + apply in_map_iff in Hin. destruct Hin as (v0 & E & _).
      destruct (String.eqb_spec (Key v0) (Sprint pk)) as [E0 | E0].
      * subst v. reflexivity.
      * subst v. contradiction.
    + destruct Hin as [<- | []]. reflexivity.
  - intros i v Hn Hk. rewrite nth_error_app1.
    + rewrite nth_error_map, Hn. cbn [option_map].
      destruct (String.eqb_spec (Key v) (Sprint pk)); [contradiction | reflexivity].
    + rewrite length_map. apply nth_error_Some. congruence.
Qed.

Lemma length_column_values (i : nat) (win : list CaseUpdateValue) :
  List.length (spec_column_values i win) = (2 * List.length win)%nat.
Proof.
  unfold spec_column_values. induction win as [| v win IH]; [reflexivity |].
  cbn [flat_map app List.length]. rewrite IH. lia.
Qed.

Lemma length_columns_values (win : list CaseUpdateValue) (n : nat) :
  forall s,
    List.length (flat_map (fun i => spec_column_values i win) (seq s n))
    = (2 * n * List.length win)%nat.
Proof.
  induction n as [| n IH]; intros s; [reflexivity |].
  cbn [seq flat_map]. rewrite length_app, IH, length_column_values. lia.
Qed.

(** X3: on a statement it can render, Build removes from the front of the
    rows exactly the rows it rendered: the window and the rows left make up
    the rows it was given, the window has min(RunLen, len) rows with 1000 for
    a [RunLen] of 0, the values bound last are the keys of the window, the IN
    list, and table, key column and columns are unchanged. *)
Theorem Build_removes_what_it_renders (d : Dialect) (b : CaseUpdateStmt) (buf : Buffer) :
  well_formed b -> (0 <= RunLen b)%Z ->
  exists b' buf' win vals,
    Build d b buf = Ret (b', buf', None)
    /\ (win ++ Value b')%list = Value b
    /\ List.length win = Nat.min (Z.to_nat (effRunLen b)) (List.length (Value b))
    /\ buf_val buf' = (buf_val buf ++ vals ++ map (fun v => VStr (Key v)) win)%list
    /\ List.length vals = (2 * List.length (Column b) * List.length win)%nat
    /\ Table b' = Table b /\ PKey b' = PKey b /\ Column b' = Column b
    /\ RunLen b' = effRunLen b.
Proof.
  intros Hwf Hk. pose proof (effRunLen_pos b Hk) as Hpos.
  eexists. eexists. exists (firstn (Z.to_nat (effRunLen b)) (Value b)).
  eexists. split; [apply Build_spec; assumption |].
  cbn [Value set_Value set_RunLen Table PKey Column RunLen buf_val buf_app].
  rewrite window_pos by assumption. unfold spec_values.
  split; [apply firstn_skipn |]. split; [apply length_firstn |].
  split; [reflexivity |]. split; [| repeat split].
  apply length_columns_values.
Qed.

Lemma Build_removes_what_it_renders_witness :
  let b := SetRunLen
             (Values (Values (Columns (CaseUpdate "t") "id" ["a"]) (VInt 1) [VStr "x"])
                     (VInt 2) [VStr "y"]) 1 in
  well_formed b /\ (0 <= RunLen b)%Z
  /\ exists b' buf' win,
      Build backquote b NewBuffer = Ret (b', buf', None)
      /\ (win ++ Value b')%list = Value b /\ List.length win = 1.
Proof.
  cbv zeta.
  assert (Hwf : well_formed
    (SetRunLen
       (Values (Values (Columns (CaseUpdate "t") "id" ["a"]) (VInt 1) [VStr "x"])
               (VInt 2) [VStr "y"]) 1)).
  { constructor; simpl; try discriminate; repeat constructor; discriminate. }
  split; [exact Hwf |]. split; [simpl; lia |].
  destruct (Build_removes_what_it_renders backquote _ NewBuffer Hwf ltac:(simpl; lia))
    as (b' & buf' & win & vals & HB & Happ & Hlen & _).
  exists b', buf', win. split; [exact HB |]. split; [exact Happ |].
  rewrite Hlen. reflexivity.
Defined.

Lemma count_q_app (a b : string) : count_q (a ++ b) = (count_q a + count_q b)%nat.
Proof. induction a as [| c a IH]; simpl; [reflexivity | rewrite IH; lia]. Qed.

Lemma count_q_concat_const {A} (s : string) (l : list A) :
  count_q (concat_str (map (fun _ => s) l)) = (count_q s * List.length l)%nat.
Proof.
  induction l as [| x l IH]; [simpl; lia |].
  cbn [map concat_str List.length]. rewrite count_q_app, IH. lia.
Qed.

Lemma count_q_join (n : nat) (l : list string) :
  Forall (fun x => count_q x = n) l ->
  count_q (join ", " l) = (n * List.length l)%nat.
Proof.
  induction 1 as [| x l Hx Hl IH]; [simpl; lia |].
  rewrite join_concat, count_q_app, Hx. cbn [List.length].
  clear IH. induction Hl as [| y l Hy Hl IH]; [simpl; lia |].
  cbn [map concat_str List.length]. rewrite !count_q_app, Hy.
  change (count_q ", ") with 0%nat. lia.
Qed.

Lemma strip_marker_op (col name op : string) :
  strip_marker col = Some (name, op) -> op = "+" \/ op = "-".
Proof.
  revert name. induction col as [| c rest IH]; intros name H; [discriminate |].
  cbn [strip_marker] in H. destruct rest as [| c' rest'].
  - destruct (Ascii.eqb c "+"); [inversion H; auto |].
    destruct (Ascii.eqb c "-"); [inversion H; auto | discriminate].
  - destruct (strip_marker (String c' rest')) as [[n o] |]; [| discriminate].
    inversion H; subst. eapply IH. reflexivity.
Qed.

Lemma count_q_spec_column (d : Dialect) (pk : string) (win : list CaseUpdateValue)
      (col : string) :
  count_q (QuoteIdent d pk) = 0 ->
  count_q (QuoteIdent d (column_ident col)) = 0 ->
  count_q (spec_column d pk win col) = (2 * List.length win)%nat.
Proof.
  intros Hpk Hcol. unfold spec_column, spec_case, column_ident in *.
  destruct (strip_marker col) as [[name op] |] eqn:E.
  - destruct (strip_marker_op _ _ _ E) as [-> | ->];
      rewrite !count_q_app, Hpk, Hcol, count_q_concat_const; simpl; lia.
  - rewrite !count_q_app, Hpk, Hcol, count_q_concat_const. simpl. lia.
Qed.

Lemma count_q_spec_sql (d : Dialect) (table pk : string) (cols : list string)
      (win : list CaseUpdateValue) :
  count_q (QuoteIdent d table) = 0 ->
  count_q (QuoteIdent d pk) = 0 ->
  Forall (fun col => count_q (QuoteIdent d (column_ident col)) = 0) cols ->
  count_q (spec_sql d table pk cols win)
  = (2 * List.length cols * List.length win + List.length win)%nat.
Proof.
  intros Ht Hpk Hcols. unfold spec_sql.
  rewrite !count_q_app, Ht, Hpk.
  rewrite (count_q_join (2 * List.length win)).
  - rewrite (count_q_join 1).
    + rewrite !length_map. simpl. lia.
    + apply Forall_map. apply Forall_forall. reflexivity.
  - apply Forall_map. eapply Forall_impl; [| exact Hcols].
    intros col Hc. now apply count_q_spec_column.
Qed.

(** X4: when the quoted identifiers of table, key column and columns hold no
    [?], the statement Build writes has as many placeholders as it binds
    values: two per column and row of the window, and one per row for the IN
    list. *)
Theorem Build_placeholders_match_values (d : Dialect) (b : CaseUpdateStmt) (buf : Buffer) :
  well_formed b -> (0 <= RunLen b)%Z ->
  count_q (QuoteIdent d (Table b)) = 0 ->
  count_q (QuoteIdent d (PKey b)) = 0 ->
  Forall (fun col => count_q (QuoteIdent d (column_ident col)) = 0) (Column b) ->
  exists b' buf' n,
    Build d b buf = Ret (b', buf', None)
    /\ n = ((2 * List.length (Column b) + 1)
            * Nat.min (Z.to_nat (effRunLen b)) (List.length (Value b)))%nat
    /\ count_q (buf_str buf') = (count_q (buf_str buf) + n)%nat
    /\ List.length (buf_val buf') = (List.length (buf_val buf) + n)%nat.
Proof.
  intros Hwf Hk Ht Hpk Hcols. pose proof (effRunLen_pos b Hk) as Hpos.
  eexists. eexists. eexists. split; [apply Build_spec; assumption |].
  split; [reflexivity |].
  cbn [buf_str buf_val buf_app]. rewrite window_pos by assumption.
  rewrite count_q_app, count_q_spec_sql by assumption.
  unfold spec_values. rewrite !length_app, length_columns_values, length_map.
  rewrite length_firstn. split; lia.
Qed.

Lemma Build_placeholders_match_values_witness :
  let b := SetRunLen
             (Values (Values (Columns (CaseUpdate "t") "id" ["a"; "n+"])
                             (VInt 1) [VStr "x"; VInt 5])
                     (VInt 2) [VStr "y"; VInt 6]) 0 in
  exists b' buf',
    Build backquote b NewBuffer = Ret (b', buf', None)
    /\ count_q (buf_str buf') = 10 /\ List.length (buf_val buf') = 10.
Proof.
  cbv zeta.
  assert (Hwf : well_formed
    (SetRunLen
       (Values (Values (Columns (CaseUpdate "t") "id" ["a"; "n+"])
                       (VInt 1) [VStr "x"; VInt 5])
               (VInt 2) [VStr "y"; VInt 6]) 0)).
  { constructor; simpl; try discriminate; repeat constructor; try discriminate;
      simpl; lia. }
  destruct (Build_placeholders_match_values backquote _ NewBuffer Hwf
              ltac:(simpl; lia) eq_refl eq_refl
              ltac:(repeat constructor))
    as (b' & buf' & n & HB & Hn & Hq & Hv).
  exists b', buf'. split; [exact HB |]. rewrite Hq, Hv, Hn. split; reflexivity.
Defined.

(* ================================================================== *)
(** * Further properties of Exec *)

Lemma chunks_concat (k : nat) (fuel : nat) :
  (0 < k)%nat ->
  forall rows, (List.length rows <= fuel)%nat -> List.concat (chunks fuel k rows) = rows.
Proof.
  intros Hk. induction fuel as [| fuel IH]; intros rows Hlen.
  - destruct rows; [reflexivity | simpl in Hlen; lia].
  - destruct rows as [| v rest]; [reflexivity |].
    cbn [chunks List.concat]. rewrite IH.
    + apply firstn_skipn.
    + rewrite length_skipn. cbn [List.length] in *. lia.
Qed.

Lemma chunks_sizes (k : nat) (fuel : nat) :
  (0 < k)%nat ->
  forall rows,
    Forall (fun win => (0 < List.length win <= k)%nat) (chunks fuel k rows).
Proof.
  intros Hk. induction fuel as [| fuel IH]; intros rows; [constructor |].
  destruct rows as [| v rest]; [constructor |].
  cbn [chunks]. constructor; [| apply IH].
  rewrite length_firstn. cbn [List.length]. lia.
Qed.

Lemma effRunLen_set (b : CaseUpdateStmt) (rows : list CaseUpdateValue) :
  (0 <= RunLen b)%Z ->
  effRunLen (set_Value (set_RunLen b (effRunLen b)) rows) = effRunLen b.
Proof.
  intros Hk. pose proof (effRunLen_pos b Hk) as Hp.
  unfold effRunLen at 1. cbn [RunLen set_Value set_RunLen].
  destruct (Z.eqb_spec (effRunLen b) 0); [lia | reflexivity].
Qed.

Lemma well_formed_step (b : CaseUpdateStmt) (k : Z) (n : nat) :
  well_formed b -> well_formed (set_Value (set_RunLen b k) (skipn n (Value b))).
Proof.
  intros [Ht Hc Hn Hr].
  constructor; cbn [set_Value set_RunLen Table Column Value]; auto.
  now apply Forall_skipn_rows.
Qed.


Lemma manyRows_unset (n : nat) : RunLen_unset (manyRows n).
Proof.
  unfold manyRows.
  assert (H : RunLen_unset (Columns (CaseUpdate "t") "id" ["a"]))
    by repeat constructor.
  revert H. generalize (Columns (CaseUpdate "t") "id" ["a"]), (seq 1 n).
  intros b l. revert b. induction l as [| i l IH]; intros b Hb; [exact Hb |].
  cbn [fold_left]. apply IH. constructor. exact Hb.
Qed.

Lemma manyRows_rows (n : nat) :
  well_formed (manyRows n) /\ List.length (Value (manyRows n)) = n.
Proof.
  destruct (manyRows_well_formed n 0) as [[Ht Hc Hn Hr] Hlen].
  split; [constructor; assumption | exact Hlen].
Qed.

(** C2, amended: a statement whose [RunLen] is 0 when Build runs, because
    [SetRunLen] was never called or was called with 0, is built exactly as
    with a [RunLen] of 1000.  Whenever Build returns, [RunLen] is 1000; when
    it returns nil, the first 1000 rows (all of them when there are fewer)
    are gone from [Value] and the other rows are left; when it returns an
    error, rows and buffer are as they were.  On a well-formed statement
    (table named, columns given, no empty column name, a value for every
    column in every row) Build returns nil, and the statement it writes is
    the one over the first 1000 rows. *)
Theorem Build_RunLen_zero_uses_1000 (d : Dialect) (b : CaseUpdateStmt) (buf : Buffer) :
  RunLen_unset b \/ RunLen b = 0%Z ->
  Build d b buf = Build d (set_RunLen b 1000) buf
  /\ (forall b' buf' err,
         Build d b buf = Ret (b', buf', err) ->
         RunLen b' = 1000%Z
         /\ (err = None -> Value b' = skipn 1000 (Value b))
         /\ (err <> None -> Value b' = Value b /\ buf' = buf))
  /\ (well_formed b ->
      Build d b buf =
      Ret (set_Value (set_RunLen b 1000) (skipn 1000 (Value b)),
           buf_app buf
             (spec_sql d (Table b) (PKey b) (Column b) (firstn 1000 (Value b)))
             (spec_values (List.length (Column b)) (firstn 1000 (Value b))),
           None)).
Proof.
  intros H0.
  assert (E : RunLen b = 0%Z) by (destruct H0; auto using RunLen_unset_zero).
  assert (Ek : effRunLen b = 1000%Z) by (unfold effRunLen; rewrite E; reflexivity).
  split; [| split].
  - unfold Build. rewrite E. reflexivity.
  - intros b' buf' err H.
    destruct (string_dec (Table b) "") as [Et | Et].
    { rewrite (Build_unbuildable d b buf (or_introl Et)), Ek in H.
      inversion H; subst. cbn [RunLen Value set_RunLen].
      split; [reflexivity |]. split; [discriminate | auto]. }
    destruct (Column b) as [| c cs] eqn:Ec.
    { rewrite (Build_unbuildable d b buf (or_intror Ec)), Ek in H.
      inversion H; subst. cbn [RunLen Value set_RunLen].
      split; [reflexivity |]. split; [discriminate | auto]. }
    rewrite Build_guarded in H by (auto; rewrite Ec; discriminate).
    cbv zeta in H. rewrite Ek in H.
    match type of H with context [columnLoop ?d ?b0 ?i ?c ?bf] =>
      destruct (columnLoop d b0 i c bf) end; [| discriminate].
    destruct (Z.ltb_spec 1000 (Z.of_nat (List.length (Value b)))) as [Hl | Hl];
      cbn [andb negb Z.eqb] in H.
    + unfold slice_from in H. cbn [Z.ltb Z.compare orb] in H.
      destruct (Z.ltb_spec (Z.of_nat (List.length (Value b))) 1000); [lia |].
      inversion H; subst. cbn [RunLen Value set_Value set_RunLen].
      split; [reflexivity |]. split; [reflexivity | congruence].
    + inversion H; subst. cbn [RunLen Value set_Value set_RunLen].
      split; [reflexivity |]. split; [| congruence].
      intros _. symmetry. apply skipn_all2. lia.
  - intros Hwf. rewrite Build_spec by (assumption || lia).
    rewrite Ek, window_pos by lia. reflexivity.
Qed.

Lemma Build_RunLen_zero_uses_1000_witness :
  let b := manyRows 1001 in
  (RunLen_unset b \/ RunLen b = 0%Z)
  /\ List.length (Value b) = 1001
  /\ Build backquote b NewBuffer = Build backquote (set_RunLen b 1000) NewBuffer
  /\ exists b' buf',
      Build backquote b NewBuffer = Ret (b', buf', None)
      /\ RunLen b' = 1000%Z /\ List.length (Value b') = 1.
Proof.
  cbv zeta. destruct (manyRows_rows 1001) as [Hwf Hlen].
  destruct (Build_RunLen_zero_uses_1000 backquote (manyRows 1001) NewBuffer
              (or_introl (manyRows_unset 1001))) as (H1 & H2 & H3).
  split; [left; apply manyRows_unset |]. split; [exact Hlen |].
  split; [exact H1 |].
  eexists. eexists. split; [exact (H3 Hwf) |].
  cbn [Value set_Value RunLen set_RunLen]. split; [reflexivity |].
  rewrite length_skipn, Hlen. reflexivity.
Defined.

Lemma length_chunks (k fuel : nat) :
  (0 < k)%nat ->
  forall rows, (List.length rows <= fuel)%nat ->
    Z.of_nat (List.length (chunks fuel k rows))
    = ceil_div (Z.of_nat (List.length rows)) (Z.of_nat k).
Proof.
  intros Hk. induction fuel as [| fuel IH]; intros rows Hlen.
  - destruct rows; [| simpl in Hlen; lia].
    cbn [chunks List.length]. rewrite ceil_div_zero by lia. reflexivity.
  - destruct rows as [| v rest] eqn:E.
    + cbn [chunks List.length]. rewrite ceil_div_zero by lia. reflexivity.
    + rewrite <- E. assert (Hpos : (0 < List.length rows)%nat) by (rewrite E; simpl; lia).
      assert (Hl : (List.length rows <= S fuel)%nat) by (rewrite E; exact Hlen).
      rewrite E at 1. cbn [chunks List.length]. rewrite <- E.
      rewrite Nat2Z.inj_succ, IH by (rewrite length_skipn; lia).
      rewrite length_skipn.
      destruct (le_gt_dec (List.length rows) k) as [Hs | Hs].
      * replace (List.length rows - k)%nat with 0%nat by lia.
        rewrite ceil_div_zero by lia. rewrite ceil_div_last by lia. reflexivity.
      * rewrite (ceil_div_step (Z.of_nat (List.length rows))) by lia.
        rewrite Nat2Z.inj_sub by lia. lia.
Qed.

Section ExecWindows.

Context {DbState Result Rows CacheState Dest : Type}.
Context {runner : Runner DbState Result Rows}.
Context {cache : CustomCache CacheState}.
Context {log : EventReceiver}.
Variable d : Dialect.
Variable interpolate : string -> list iface -> Interp.

Local Abbreviation World := (World DbState CacheState Dest).

(** One cycle on a statement Build can render, whatever the driver
    answers. *)
Lemma ExecContext_built (b : CaseUpdateStmt) (w : World) db' r e :
  session_bound b -> well_formed b -> (0 <= RunLen b)%Z ->
  let it := issued d interpolate b (window (effRunLen b) (Value b)) in
  let b1 := set_Value (set_RunLen b (effRunLen b))
                      (skipn (Z.to_nat (effRunLen b)) (Value b)) in
  ierr it = None ->
  ExecContext (w_db w) (isql it) (ivalue it) = (db', r, e) ->
  CaseUpdateStmt_ExecContext d interpolate b w =
  match e with
  | None =>
      Ret (b1, Some r, None,
           {| w_db := db'; w_cache := w_cache w; w_dest := w_dest w;
              w_trace := (w_trace w ++ [DbExec (isql it) (ivalue it);
                                        LogTiming "dbr.exec" (isql it)])%list |})
  | Some err =>
      let w1 := {| w_db := db'; w_cache := w_cache w; w_dest := w_dest w;
                   w_trace := (w_trace w ++ [DbExec (isql it) (ivalue it);
                                             LogErr "dbr.exec.exec" err (isql it)])%list |} in
      match EventErrKv "dbr.exec.exec" err (isql it) with
      | Some e' => Ret (b1, None, Some e', w1)
      | None => Ret (b1, Some r, None, w1)
      end
  end.
Proof.
  intros Hsb Hwf Hk it b1 Hi HX.
  stmt_bound Hsb.
  rewrite (Build_spec _ _ _ Hwf Hk).
  cbn [buf_app buf_str buf_val NewBuffer app]. rewrite !append_nil_l.
  fold (issued d interpolate b (window (effRunLen b) (Value b))). fold it. fold b1.
  rewrite Hi. unfold runner_ExecContext. rewrite HX.
  destruct e as [err |].
  - unfold log_EventErrKv, emit, bind, ret. cbn [w_db w_cache w_dest w_trace].
    rewrite <- app_assoc. cbn [app].
    destruct (EventErrKv "dbr.exec.exec" err (isql it)); reflexivity.
  - cbn. rewrite <- app_assoc. reflexivity.
Qed.

Lemma cycles_succeed_set (b : CaseUpdateStmt) (k : Z) (rows : list CaseUpdateValue)
      (wins : list (list CaseUpdateValue)) :
  forall db,
    cycles_succeed d interpolate b db wins ->
    cycles_succeed d interpolate (set_Value (set_RunLen b k) rows) db wins.
Proof.
  induction wins as [| win wins IH]; intros db H; [exact I |].
  destruct H as (Hi & Hx & Hrest).
  split; [exact Hi |]. split; [exact Hx |]. apply IH. exact Hrest.
Qed.

Lemma Exec_loop_windows (fuel : nat) :
  forall (b : CaseUpdateStmt) (w : World),
    session_bound b -> well_formed b -> (0 <= RunLen b)%Z ->
    (List.length (Value b) <= fuel)%nat ->
    cycles_succeed d interpolate b (w_db w)
                   (chunks fuel (Z.to_nat (effRunLen b)) (Value b)) ->
    exists b' w',
      Exec_loop d interpolate fuel b w = Some (Ret (b', None, w'))
      /\ Value b' = []
      /\ w_trace w' =
         (w_trace w ++ flat_map (cycle_trace d interpolate b)
                                (chunks fuel (Z.to_nat (effRunLen b)) (Value b)))%list.
Proof.
  induction fuel as [| fuel IH]; intros b w Hsb Hwf Hk Hlen Hok.
  - destruct (Value b) eqn:E; [| simpl in Hlen; lia].
    exists b, w. cbn [Exec_loop chunks flat_map]. rewrite E, app_nil_r. auto.
  - destruct (Value b) as [| v rest] eqn:E.
    + exists b, w. cbn [Exec_loop chunks flat_map]. rewrite E, app_nil_r. auto.
    + cbn [Exec_loop chunks]. cbn [chunks] in Hok. rewrite E, <- E. rewrite <- E in Hok.
      rewrite <- window_pos in Hok by (apply effRunLen_pos; exact Hk).
      set (it := issued d interpolate b (window (effRunLen b) (Value b))).
      destruct Hok as (Hi & Hx & Hrest). fold it in Hx, Hrest.
      destruct (ExecContext (w_db w) (isql it) (ivalue it)) as [[db' r] e] eqn:HX.
      cbn [fst snd] in Hx, Hrest. subst e.
      rewrite (ExecContext_built b w db' r None Hsb Hwf Hk Hi HX).
      fold it.
      set (b1 := set_Value (set_RunLen b (effRunLen b))
                           (skipn (Z.to_nat (effRunLen b)) (Value b))).
      match goal with |- context [Exec_loop _ _ fuel b1 ?x] => set (w1 := x) end.
      destruct (IH b1 w1) as (b' & w' & HE & Hv & Ht).
      * apply session_bound_set. exact Hsb.
      * apply well_formed_step. exact Hwf.
      * cbn [RunLen b1 set_Value set_RunLen]. pose proof (effRunLen_pos b Hk). lia.
      * unfold b1. cbn [Value set_Value]. rewrite length_skipn, E.
        pose proof (effRunLen_pos b Hk). cbn [List.length] in *. lia.
      * unfold b1 at 2. rewrite (effRunLen_set b _ Hk).
        unfold b1, w1. cbn [Value set_Value w_db].
        apply cycles_succeed_set. exact Hrest.
      * exists b', w'. split; [exact HE |]. split; [exact Hv |].
        rewrite Ht. unfold b1 at 2. rewrite (effRunLen_set b _ Hk).
        unfold w1. cbn [w_trace flat_map]. rewrite <- app_assoc.
        unfold b1. cbn [Value set_Value].
        subst it. rewrite window_pos by (apply effRunLen_pos; exact Hk).
        reflexivity.
Qed.

Lemma count_DbExec_cycles (b : CaseUpdateStmt) (wins : list (list CaseUpdateValue)) :
  count_DbExec (flat_map (cycle_trace d interpolate b) wins) = List.length wins.
Proof.
  induction wins as [| win wins IH]; [reflexivity |].
  cbn [flat_map List.length]. rewrite count_DbExec_app, IH. reflexivity.
Qed.

(** C4, amended: for every statement made by a session or a transaction
    that is well formed (table named, columns given, no empty column name, a
    value for every column in every row), with N accumulated rows and a
    positive batch size K, when the statement of each window is interpolated
    and executed without error, Exec returns nil after exactly ceil(N/K)
    driver executions and leaves the row list empty; with two rows and
    K = 1 it sends two statements, one after the other, the first over the
    first row alone and the second over the second row alone. *)
Theorem Exec_drains_in_ceil_cycles (b : CaseUpdateStmt) (w : World) :
  session_bound b -> well_formed b -> (0 < RunLen b)%Z ->
  cycles_succeed d interpolate b (w_db w)
                 (windows (Z.to_nat (RunLen b)) (Value b)) ->
  (exists b' w',
      Exec d interpolate b w = Some (Ret (b', None, w'))
      /\ Value b' = []
      /\ Z.of_nat (count_DbExec (w_trace w')) =
         (Z.of_nat (count_DbExec (w_trace w))
          + ceil_div (Z.of_nat (List.length (Value b))) (RunLen b))%Z)
  /\ (forall r1 r2,
         RunLen b = 1%Z -> Value b = [r1; r2] ->
         let it1 := issued d interpolate b [r1] in
         let it2 := issued d interpolate b [r2] in
         exists b' w',
           Exec d interpolate b w = Some (Ret (b', None, w'))
           /\ w_trace w' =
              (w_trace w ++ [DbExec (isql it1) (ivalue it1);
                             LogTiming "dbr.exec" (isql it1);
                             DbExec (isql it2) (ivalue it2);
                             LogTiming "dbr.exec" (isql it2)])%list).
Proof.
  intros Hsb Hwf Hk Hok.
  assert (Ek : effRunLen b = RunLen b).
  { unfold effRunLen. destruct (Z.eqb_spec (RunLen b) 0); [lia | reflexivity]. }
  unfold windows in Hok. rewrite <- Ek in Hok.
  destruct (Exec_loop_windows (List.length (Value b)) b w Hsb Hwf
              ltac:(lia) (le_n _) Hok) as (b' & w' & HE & Hv & Ht).
  rewrite Ek in Ht. split.
  - exists b', w'. split; [exact HE |]. split; [exact Hv |].
    rewrite Ht, count_DbExec_app, count_DbExec_cycles, Nat2Z.inj_add.
    rewrite (length_chunks (Z.to_nat (RunLen b)) _ ltac:(lia) _ (le_n _)).
    rewrite Z2Nat.id by lia. reflexivity.
  - intros r1 r2 H1 Hrows it1 it2. exists b', w'. split; [exact HE |].
    rewrite Ht, H1, Hrows. reflexivity.
Qed.

(** X5: on a well-formed statement made by a session or a transaction whose
    [RunLen] is not negative, when the statement of each window is
    interpolated and executed without error, Exec returns nil with the row
    list empty and has sent one statement per window, in order: the windows
    are consecutive runs of RunLen rows (1000 for a [RunLen] of 0), none
    empty, that put end to end are the rows as they were accumulated; so
    every row is sent exactly once. *)
Theorem Exec_sends_each_row_once (b : CaseUpdateStmt) (w : World) :
  session_bound b -> well_formed b -> (0 <= RunLen b)%Z ->
  let k := Z.to_nat (effRunLen b) in
  cycles_succeed d interpolate b (w_db w) (windows k (Value b)) ->
  exists b' w',
    Exec d interpolate b w = Some (Ret (b', None, w'))
    /\ Value b' = []
    /\ w_trace w' =
       (w_trace w ++ flat_map (cycle_trace d interpolate b) (windows k (Value b)))%list
    /\ List.concat (windows k (Value b)) = Value b
    /\ Forall (fun win => (0 < List.length win <= k)%nat) (windows k (Value b)).
Proof.
  intros Hsb Hwf Hk k Hok. pose proof (effRunLen_pos b Hk) as Hp.
  destruct (Exec_loop_windows (List.length (Value b)) b w Hsb Hwf Hk (le_n _) Hok)
    as (b' & w' & HE & Hv & Ht).
  exists b', w'. unfold Exec, windows. repeat split; auto.
  - apply chunks_concat; [unfold k; lia | lia].
  - apply chunks_sizes. unfold k; lia.
Qed.

(** X6: Exec drops a window whose execution fails.  On a well-formed
    statement with rows made by a session or a transaction, when the driver
    refuses the first statement and the receiver hands the error back, Exec
    returns that error after this one driver call, and the rows of the
    refused window are no longer in the list: Build removed them before the
    statement was sent. *)
Theorem Exec_failed_window_is_dropped (b : CaseUpdateStmt) (w : World) db' r e :
  session_bound b ->
  returns_err log ->
  well_formed b -> (0 <= RunLen b)%Z -> Value b <> [] ->
  let it := issued d interpolate b (window (effRunLen b) (Value b)) in
  ierr it = None ->
  ExecContext (w_db w) (isql it) (ivalue it) = (db', r, Some e) ->
  Exec d interpolate b w =
  Some (Ret (set_Value (set_RunLen b (effRunLen b))
                       (skipn (Z.to_nat (effRunLen b)) (Value b)),
             Some e,
             {| w_db := db'; w_cache := w_cache w; w_dest := w_dest w;
                w_trace := (w_trace w ++ [DbExec (isql it) (ivalue it);
                                          LogErr "dbr.exec.exec" e (isql it)])%list |})).
Proof.
  intros Hsb Hret Hwf Hk Hne it Hi HX. unfold Exec.
  assert (HE : exists v rest, Value b = v :: rest)
    by (destruct (Value b); [contradiction | eauto]).
  destruct HE as (v & rest & E). rewrite E at 1.
  cbn [List.length Exec_loop]. rewrite E at 1. cbv iota.
  rewrite (ExecContext_built b w db' r (Some e) Hsb Hwf Hk Hi HX).
  cbv zeta. fold it. rewrite Hret. reflexivity.
Qed.


(** X8: on a statement with rows made by a session or a transaction but
    without table or without columns, Exec stops in its first cycle: with a
    receiver that hands errors back it returns the error of Build, nothing
    is sent to the driver and every row stays in the list. *)
Theorem Exec_unbuildable_returns_error (b : CaseUpdateStmt) (w : World) :
  session_bound b ->
  returns_err log ->
  Table b = "" \/ Column b = [] -> Value b <> [] ->
  let err := if Table b =? "" then ErrTableNotSpecified else ErrColumnNotSpecified in
  Exec d interpolate b w =
  Some (Ret (set_RunLen b (effRunLen b), Some err,
             add_trace w [LogErr "dbr.exec.interpolate" err ""])).
Proof.
  intros Hsb Hret Hb Hne err. unfold Exec.
  destruct (Value b) as [| v rest] eqn:E; [contradiction |].
  cbn [List.length Exec_loop]. rewrite E.
  stmt_bound Hsb.
  rewrite (Build_unbuildable _ _ _ Hb). fold err.
  unfold log_EventErrKv, emit, bind, ret. cbn [ierr isql]. rewrite Hret.
  reflexivity.
Qed.

(** X9: the loop of Exec relies on the receiver.  On a statement with rows
    made by a session or a transaction but without table or without
    columns, with a receiver that answers nil to the error of the
    interpolation, every cycle fails in Build without removing a row and the
    loop sees no error: no number of cycles ends it. *)
Theorem Exec_never_ends_when_error_swallowed (b : CaseUpdateStmt) (w : World) :
  session_bound b ->
  (forall err sql, EventErrKv "dbr.exec.interpolate" err sql = None) ->
  Table b = "" \/ Column b = [] -> Value b <> [] ->
  forall fuel, Exec_loop d interpolate fuel b w = None.
Proof.
  intros Hsb Hlog Hb Hne fuel. revert b w Hsb Hb Hne.
  induction fuel as [| fuel IH]; intros b w Hsb Hb Hne.
  - cbn [Exec_loop]. destruct (Value b); [contradiction | reflexivity].
  - cbn [Exec_loop]. destruct (Value b) as [| v rest] eqn:E; [contradiction |].
    stmt_bound Hsb.
    rewrite (Build_unbuildable _ _ _ Hb).
    unfold log_EventErrKv, emit, bind, ret. cbn [ierr isql]. rewrite Hlog.
    apply IH.
    + exact Hsb.
    + exact Hb.
    + cbn [Value set_RunLen]. rewrite E. discriminate.
Qed.


End ExecWindows.

Lemma twoRows_well_formed : well_formed Example.twoRows.
Proof. constructor; simpl; try discriminate; repeat constructor; discriminate. Qed.

Lemma twoRows_bound : session_bound Example.twoRows.
Proof. repeat split. Qed.

Lemma noTable_bound : session_bound Faulty.noTable.
Proof. repeat split. Qed.

Lemma Exec_drains_in_ceil_cycles_witness :
  let b := Example.twoRows in
  let w := Example.world0 (@nil (string * list Byte.byte)) in
  session_bound b /\ well_formed b /\ (0 < RunLen b)%Z
  /\ cycles_succeed (runner := Example.okRunner) backquote Example.plain b (w_db w)
                    (windows (Z.to_nat (RunLen b)) (Value b))
  /\ (exists b' w',
         Exec (runner := Example.okRunner) (cache := Example.mapCache)
              (log := NullEventReceiver) backquote Example.plain b w
         = Some (Ret (b', None, w'))
         /\ Value b' = []
         /\ Z.of_nat (count_DbExec (w_trace w')) = 2%Z)
  /\ exists b' w',
      Exec (runner := Example.okRunner) (cache := Example.mapCache)
           (log := NullEventReceiver) backquote Example.plain b w
      = Some (Ret (b', None, w'))
      /\ w_trace w' =
         [DbExec "UPDATE `t` SET `a` =  CASE `id` WHEN ? THEN ?  END  WHERE `id` IN ( ?  )"
                 [VStr "1"; VStr "x"; VStr "1"];
          LogTiming "dbr.exec"
                 "UPDATE `t` SET `a` =  CASE `id` WHEN ? THEN ?  END  WHERE `id` IN ( ?  )";
          DbExec "UPDATE `t` SET `a` =  CASE `id` WHEN ? THEN ?  END  WHERE `id` IN ( ?  )"
                 [VStr "2"; VStr "y"; VStr "2"];
          LogTiming "dbr.exec"
                 "UPDATE `t` SET `a` =  CASE `id` WHEN ? THEN ?  END  WHERE `id` IN ( ?  )"].
Proof.
  cbv zeta.
  assert (Hok : cycles_succeed (runner := Example.okRunner) backquote Example.plain
                  Example.twoRows
                  (w_db (Example.world0 (@nil (string * list Byte.byte))))
                  (windows (Z.to_nat (RunLen Example.twoRows))
                           (Value Example.twoRows))).
  { repeat split. }
  split; [exact twoRows_bound |]. split; [exact twoRows_well_formed |].
  split; [simpl; lia |]. split; [exact Hok |].
  destruct (Exec_drains_in_ceil_cycles
              (runner := Example.okRunner) (cache := Example.mapCache)
              (log := NullEventReceiver) (Dest := list Z)
              backquote Example.plain
              Example.twoRows (Example.world0 [])
              twoRows_bound twoRows_well_formed ltac:(simpl; lia) Hok)
    as [H1 H2].
  split.
  - destruct H1 as (b' & w' & HE & Hv & Hc).
    exists b', w'. split; [exact HE |]. split; [exact Hv |].
    rewrite Hc. reflexivity.
  - destruct (H2 _ _ eq_refl eq_refl) as (b' & w' & HE & Ht).
    exists b', w'. split; [exact HE |]. rewrite Ht. reflexivity.
Defined.

(** C4, as stated, fails: on a statement made by a session with two rows,
    batch size 1 and no table named, with a driver that never fails, Exec
    stops in its first cycle with [ErrTableNotSpecified]: nothing is sent to
    the driver, where ceil(2/1) is 2, and both rows are still in the list. *)
Lemma Exec_without_table_stops :
  let b := Faulty.noTable in
  let w := Example.world0 (@nil (string * list Byte.byte)) in
  session_bound b /\ (0 < RunLen b)%Z /\ List.length (Value b) = 2
  /\ (forall db sql args,
         snd (ExecContext (Runner := Example.okRunner) db sql args) = None)
  /\ exists w',
      Exec (runner := Example.okRunner) (cache := Example.mapCache)
           (log := NullEventReceiver) backquote Example.plain b w
      = Some (Ret (b, Some ErrTableNotSpecified, w'))
      /\ count_DbExec (w_trace w') = 0
      /\ ceil_div 2 1 = 2%Z
      /\ List.length (Value b) = 2.
Proof.
  cbv zeta. split; [repeat split |]. split; [reflexivity |].
  split; [reflexivity |]. split; [reflexivity |].
  eexists. split; [reflexivity |]. repeat split.
Qed.

Lemma Exec_sends_each_row_once_witness :
  exists b' w',
    Exec (runner := Example.okRunner) (cache := Example.mapCache)
         (log := NullEventReceiver) backquote Example.plain
         Example.twoRows (Example.world0 (@nil (string * list Byte.byte)))
    = Some (Ret (b', None, w'))
    /\ Value b' = [] /\ List.length (w_trace w') = 4.
Proof.
  destruct (Exec_sends_each_row_once
              (runner := Example.okRunner) (cache := Example.mapCache)
              (log := NullEventReceiver) (Dest := list Z)
              backquote Example.plain Example.twoRows (Example.world0 [])
              twoRows_bound twoRows_well_formed ltac:(simpl; lia)
              ltac:(repeat split))
    as (b' & w' & HE & Hv & Ht & _).
  exists b', w'. split; [exact HE |]. split; [exact Hv |].
  rewrite Ht. reflexivity.
Defined.

Lemma Exec_failed_window_is_dropped_witness :
  exists w',
    Exec (runner := Faulty.refusingRunner) (cache := Example.mapCache)
         (log := NullEventReceiver) backquote Example.plain
         Example.twoRows (Example.world0 (@nil (string * list Byte.byte)))
    = Some (Ret (set_Value Example.twoRows [{| Key := "2"; Val := [VStr "y"] |}],
                 Some (errors_New "refused"), w'))
    /\ count_DbExec (w_trace w') = 1.
Proof.
  eexists. split.
  - apply (Exec_failed_window_is_dropped
             (runner := Faulty.refusingRunner) (cache := Example.mapCache)
             (log := NullEventReceiver) (Dest := list Z)
             backquote Example.plain Example.twoRows (Example.world0 [])
             1 0%Z (errors_New "refused") twoRows_bound
             (fun _ _ _ => eq_refl) twoRows_well_formed
             ltac:(simpl; lia) ltac:(discriminate) eq_refl eq_refl).
  - reflexivity.
Defined.


Lemma Exec_unbuildable_returns_error_witness :
  Exec (runner := Example.okRunner) (cache := Example.mapCache)
       (log := NullEventReceiver) backquote Example.plain
       Faulty.noTable (Example.world0 (@nil (string * list Byte.byte)))
  = Some (Ret (Faulty.noTable, Some ErrTableNotSpecified,
               add_trace (Example.world0 [])
                         [LogErr "dbr.exec.interpolate" ErrTableNotSpecified ""])).
Proof.
  apply (Exec_unbuildable_returns_error
           (runner := Example.okRunner) (cache := Example.mapCache)
           (log := NullEventReceiver) (Dest := list Z)
           backquote Example.plain Faulty.noTable (Example.world0 [])
           noTable_bound
           (fun _ _ _ => eq_refl) (or_introl eq_refl) ltac:(discriminate)).
Defined.

Lemma Exec_never_ends_when_error_swallowed_witness :
  Exec_loop (runner := Example.okRunner) (cache := Example.mapCache)
            (log := Faulty.silentReceiver) backquote Example.plain
            50 Faulty.noTable (Example.world0 (@nil (string * list Byte.byte)))
  = None.
Proof.
  apply (Exec_never_ends_when_error_swallowed
           (runner := Example.okRunner) (cache := Example.mapCache)
           (log := Faulty.silentReceiver) (Dest := list Z)
           backquote Example.plain Faulty.noTable (Example.world0 [])
           noTable_bound
           (fun _ _ => eq_refl) (or_introl eq_refl) ltac:(discriminate)).
Defined.


Lemma Exec_total_witness :
  returns_err NullEventReceiver
  /\ Exec (runner := Faulty.refusingRunner) (cache := Example.mapCache)
          (log := NullEventReceiver) backquote Example.plain
          Example.twoRows (Example.world0 (@nil (string * list Byte.byte)))
     <> None.
Proof.
  split; [intros n e s; reflexivity |].
  apply (Exec_total (runner := Faulty.refusingRunner) (cache := Example.mapCache)
                    (log := NullEventReceiver) (Dest := list Z)
                    backquote Example.plain (fun _ _ _ => eq_refl)).
Defined.

(* ================================================================== *)
(** * Further properties of the engine *)

Ltac engine_unfold :=
  unfold query_db, queryCount, queryRows, query_store, load_dest, get_dest,
    decode_dest, log_EventErrKv, log_TimingKv, emit, custom_cache_Set,
    custom_cache_GetBytes, custom_cache_Del, runner_QueryContext,
    runner_ExecContext, interpolate_builder, bind, ret, add_trace.

Ltac engine_cases :=
  repeat match goal with
         | |- context [match ?x with _ => _ end] =>
             lazymatch x with
             | context [match _ with _ => _ end] => fail
             | _ => destruct x eqn:?;
                    cbn [w_db w_cache w_dest w_trace fst snd andb negb]
             end
         end.

Section EngineFurther.

Context {DbState Result Rows CacheState Dest B : Type}.
Context {runner : Runner DbState Result Rows}.
Context {cache : CustomCache CacheState}.
Context {log : EventReceiver}.
Context {dst : Destination Dest Rows}.
Context {bld : Builder B}.

Local Abbreviation World := (World DbState CacheState Dest).

(** X11: a failed [exec] leaves the cache alone, whatever the directive.
    When the statement does not render, [exec] reports the error and
    returns before any driver call; when the driver refuses the statement,
    [exec] reports the error and returns the driver's result without
    deleting the cache key. *)
Theorem exec_failure_leaves_cache (builder builder' : B) (customs : list Custom)
        (w : World) (it : Interp) :
  encodePlaceholder builder = Ret (builder', it) ->
  (forall err,
      ierr it = Some err ->
      exec builder customs w =
      Ret (builder', None, EventErrKv "dbr.exec.interpolate" err (isql it),
           add_trace w [LogErr "dbr.exec.interpolate" err (isql it)]))
  /\ (forall db' result err,
         ierr it = None ->
         ExecContext (w_db w) (isql it) (ivalue it) = (db', result, Some err) ->
         exec builder customs w =
         Ret (builder', Some result, EventErrKv "dbr.exec.exec" err (isql it),
              {| w_db := db'; w_cache := w_cache w; w_dest := w_dest w;
                 w_trace := (w_trace w ++ [DbExec (isql it) (ivalue it);
                                           LogErr "dbr.exec.exec" err (isql it)])%list |})).
Proof.
  intros HB. split.
  - intros err Hi. unfold exec. engine_unfold. rewrite HB, Hi. reflexivity.
  - intros db' result err Hi HX. unfold exec. engine_unfold.
    rewrite HB, Hi, HX. cbn [w_db w_cache w_dest w_trace].
    rewrite <- app_assoc. reflexivity.
Qed.

(** X12: a successful [exec] whose directive is disabled, or enabled with an
    empty key, does nothing to the cache: the empty key that [query] rejects
    is passed over in silence here. *)
Theorem exec_without_cache_key (builder builder' : B) (customs : list Custom)
        (w : World) (it : Interp) (db' : DbState) (result : Result) :
  encodePlaceholder builder = Ret (builder', it) ->
  ierr it = None ->
  ExecContext (w_db w) (isql it) (ivalue it) = (db', result, None) ->
  isCache (firstCustom customs) = false \/ cacheKey (firstCustom customs) = "" ->
  exec builder customs w =
  Ret (builder', Some result, None,
       {| w_db := db'; w_cache := w_cache w; w_dest := w_dest w;
          w_trace := (w_trace w ++ [DbExec (isql it) (ivalue it);
                                    LogTiming "dbr.exec" (isql it)])%list |}).
Proof.
  intros HB Hi HX Hc. unfold exec. engine_unfold. rewrite HB, Hi, HX.
  cbn [w_db w_cache w_dest w_trace].
  destruct (isCache (firstCustom customs)) eqn:E.
  - destruct Hc as [Hc | Hc]; [discriminate |]. rewrite Hc.
    cbn. rewrite <- app_assoc. reflexivity.
  - cbn. rewrite <- app_assoc. reflexivity.
Qed.

(** X13: with caching disabled [query] never reads or writes the cache:
    whatever it returns, the state of the cache is the one it started from
    and none of the actions it added is an action on the cache. *)
Theorem query_without_caching_leaves_cache
        (builder b' : B) (customs : list Custom) (w w' : World) n e :
  isCache (firstCustom customs) = false ->
  query builder customs w = Ret (b', n, e, w') ->
  w_cache w' = w_cache w
  /\ exists t, w_trace w' = (w_trace w ++ t)%list
               /\ forallb (fun a => negb (is_cache_action a)) t = true.
Proof.
  intros Hc. unfold query. rewrite Hc. engine_unfold. rewrite Hc.
  cbn [andb]. engine_cases; intros HQ; inversion HQ; subst;
    cbn [w_cache w_trace];
    (split; [reflexivity |]);
    rewrite <- ?app_assoc; (eexists; split; [reflexivity | reflexivity]).
Qed.

Lemma query_hit_count_run (builder builder' : B) (customs : list Custom) (w : World)
      (it : Interp) (c' : CacheState) (reply : list Byte.byte) (count : Z) :
  let custom := firstCustom customs in
  let key := cacheKey custom in
  isCache custom = true -> isCount custom = true -> key <> "" ->
  encodePlaceholder builder = Ret (builder', it) -> ierr it = None ->
  cache_GetBytes (w_cache w) key = (c', (reply, true, None)) ->
  gobDecodeInt reply = inl count ->
  query builder customs w =
  Ret (builder', count, None,
       {| w_db := w_db w; w_cache := c'; w_dest := w_dest w;
          w_trace := (w_trace w ++ [CacheGet key;
                                    LogTiming "dbr.select.cache"
                                              (countWrap (isql it))])%list |}).
Proof.
  intros custom key Hc Hn Hk HB Hi HG HD.
  unfold query, getSQL. engine_unfold. fold custom. rewrite Hc, HB, Hi. fold key.
  destruct (String.eqb_spec key "") as [E | _]; [contradiction |].
  rewrite HG, Hn, HD. cbn [w_db w_cache w_dest w_trace].
  rewrite <- app_assoc. reflexivity.
Qed.

(** X14: a cache hit for a count is answered from the cache alone.  When the
    bytes under the key decode into an integer, [query] returns it with a
    nil error; the statement was rendered once, for the reported text, and
    nothing is sent to the driver. *)
Theorem query_cache_hit_count (builder builder' : B) (customs : list Custom) (w : World)
        (it : Interp) (c' : CacheState) (reply : list Byte.byte) (count : Z) :
  let custom := firstCustom customs in
  let key := cacheKey custom in
  isCache custom = true -> isCount custom = true -> key <> "" ->
  encodePlaceholder builder = Ret (builder', it) -> ierr it = None ->
  cache_GetBytes (w_cache w) key = (c', (reply, true, None)) ->
  gobDecodeInt reply = inl count ->
  query builder customs w =
  Ret (builder', count, None,
       {| w_db := w_db w; w_cache := c'; w_dest := w_dest w;
          w_trace := (w_trace w ++ [CacheGet key;
                                    LogTiming "dbr.select.cache"
                                              (countWrap (isql it))])%list |}).
Proof.
  intros custom key Hc Hn Hk HB Hi HG HD.
  unfold query, getSQL. engine_unfold. fold custom. rewrite Hc, HB, Hi. fold key.
  destruct (String.eqb_spec key "") as [E | _]; [contradiction |].
  rewrite HG, Hn, HD. cbn [w_db w_cache w_dest w_trace].
  rewrite <- app_assoc. reflexivity.
Qed.

(** X15: a cache hit for rows is answered from the cache alone.  When the
    bytes under the key decode into the destination, [query] sends nothing to
    the driver and returns the length of the destination when it is a slice
    and 1 otherwise; a destination that is no pointer, or a nil one, gives
    count 0 and the report of [ErrInvalidPointer]. *)
Theorem query_cache_hit_rows (builder builder' : B) (customs : list Custom) (w : World)
        (it : Interp) (c' : CacheState) (reply : list Byte.byte) (dest' : Dest) :
  let custom := firstCustom customs in
  let key := cacheKey custom in
  isCache custom = true -> isCount custom = false -> key <> "" ->
  encodePlaceholder builder = Ret (builder', it) -> ierr it = None ->
  cache_GetBytes (w_cache w) key = (c', (reply, true, None)) ->
  gobDecodeDest reply (w_dest w) = (dest', None) ->
  query builder customs w =
  if destIsPtr dest' then
    Ret (builder', match destSliceLen dest' with Some n => n | None => 1%Z end, None,
         {| w_db := w_db w; w_cache := c'; w_dest := dest';
            w_trace := (w_trace w ++ [CacheGet key;
                                      LogTiming "dbr.select.cache" (isql it)])%list |})
  else
    Ret (builder', 0%Z,
         EventErrKv "dbr.select.cache.decode" ErrInvalidPointer (isql it),
         {| w_db := w_db w; w_cache := c'; w_dest := dest';
            w_trace := (w_trace w ++ [CacheGet key;
                                      LogErr "dbr.select.cache.decode"
                                             ErrInvalidPointer (isql it)])%list |}).
Proof.
  intros custom key Hc Hn Hk HB Hi HG HD.
  unfold query, getSQL. engine_unfold. fold custom. rewrite Hc, HB, Hi. fold key.
  destruct (String.eqb_spec key "") as [E | _]; [contradiction |].
  rewrite HG, Hn. cbn [w_db w_cache w_dest w_trace]. rewrite HD.
  cbn [w_db w_cache w_dest w_trace].
  destruct (destIsPtr dest'); cbn; rewrite <- app_assoc; reflexivity.
Qed.

(** X16: a query that fails is not cached.  With caching enabled and a miss,
    when the driver refuses the query and the receiver hands errors back,
    [query] reports the error twice, as [dbr.select.load.query] and as
    [dbr.select.load.scan], returns count 0 with that error, and stores
    nothing under the key. *)
Theorem query_failure_is_not_cached
        (builder b1 b2 : B) (customs : list Custom) (w : World) (it1 it2 : Interp)
        (c1 : CacheState) (reply : list Byte.byte) (db' : DbState) (rows : Rows)
        (e : error) :
  let custom := firstCustom customs in
  let key := cacheKey custom in
  let sql := if isCount custom then countWrap (isql it2) else isql it2 in
  returns_err log ->
  isCache custom = true -> key <> "" ->
  encodePlaceholder builder = Ret (b1, it1) -> ierr it1 = None ->
  cache_GetBytes (w_cache w) key = (c1, (reply, false, None)) ->
  encodePlaceholder b1 = Ret (b2, it2) -> ierr it2 = None ->
  QueryContext (w_db w) sql (ivalue it2) = (db', rows, Some e) ->
  query builder customs w =
  Ret (b2, 0%Z, Some e,
       {| w_db := db'; w_cache := c1; w_dest := w_dest w;
          w_trace := (w_trace w ++ [CacheGet key; DbQuery sql (ivalue it2);
                                    LogErr "dbr.select.load.query" e sql;
                                    LogErr "dbr.select.load.scan" e sql])%list |}).
Proof.
  intros custom key sql Hret Hc Hk HB1 Hi1 HG HB2 Hi2 HQ.
  rewrite (query_cache_miss builder b1 customs w it1 c1 reply Hc Hk HB1 Hi1 HG).
  fold custom key. engine_unfold. unfold sql in *.
  destruct (isCount custom); rewrite HB2, Hi2;
    cbn [w_db w_cache w_dest w_trace]; rewrite HQ;
    cbn [w_db w_cache w_dest w_trace]; rewrite !Hret;
    cbn [w_db w_cache w_dest w_trace]; rewrite <- !app_assoc; reflexivity.
Qed.

(** X17: with caching enabled, rows asked for and a cache miss, [query] sends
    the statement as it is to the driver, loads the rows into the
    destination and returns the count of [Load] with a nil error.  When the
    loaded destination encodes, the bytes are stored under the cache key with
    the TTL of the directive, a failure of the store being reported only;
    when it does not encode, the failure is reported and nothing is
    stored. *)
Theorem query_rows_miss_caches_destination
        (builder b1 b2 : B) (customs : list Custom) (w : World) (it1 it2 : Interp)
        (c1 : CacheState) (reply : list Byte.byte) (db' : DbState) (rows : Rows)
        (dest' : Dest) (n : Z) :
  let custom := firstCustom customs in
  let key := cacheKey custom in
  let sql := isql it2 in
  isCache custom = true -> isCount custom = false -> key <> "" ->
  encodePlaceholder builder = Ret (b1, it1) -> ierr it1 = None ->
  cache_GetBytes (w_cache w) key = (c1, (reply, false, None)) ->
  encodePlaceholder b1 = Ret (b2, it2) -> ierr it2 = None ->
  QueryContext (w_db w) sql (ivalue it2) = (db', rows, None) ->
  Load rows (w_dest w) = (dest', n, None) ->
  match gobEncodeDest dest' with
  | (encoded, None) =>
      exists c2 serr,
        cache_Set c1 key encoded (cacheExpire custom) = (c2, serr)
        /\ query builder customs w =
           Ret (b2, n, None,
                {| w_db := db'; w_cache := c2; w_dest := dest';
                   w_trace :=
                     (w_trace w
                        ++ [CacheGet key; DbQuery sql (ivalue it2);
                            CacheSet key encoded (cacheExpire custom)]
                        ++ match serr with
                           | Some e => [LogErr "dbr.select.cache.set" e sql]
                           | None => []
                           end
                        ++ [LogTiming "dbr.select" sql])%list |})
  | (_, Some e) =>
      query builder customs w =
      Ret (b2, n, None,
           {| w_db := db'; w_cache := c1; w_dest := dest';
              w_trace :=
                (w_trace w
                   ++ [CacheGet key; DbQuery sql (ivalue it2);
                       LogErr "dbr.select.cache.encode" e sql;
                       LogTiming "dbr.select" sql])%list |})
  end.
Proof.
  intros custom key sql Hc Hn Hk HB1 Hi1 HG HB2 Hi2 HQ HL.
  rewrite (query_cache_miss builder b1 customs w it1 c1 reply Hc Hk HB1 Hi1 HG).
  fold custom key. engine_unfold. rewrite Hn, HB2, Hi2.
  cbn [w_db w_cache w_dest w_trace]. fold sql. rewrite HQ.
  cbn [w_db w_cache w_dest w_trace]. rewrite HL.
  cbn [w_db w_cache w_dest w_trace]. rewrite Hc. cbv beta iota.
  cbn [w_db w_cache w_dest w_trace].
  destruct (gobEncodeDest dest') as [encoded [e |]].
  - cbn. rewrite <- !app_assoc. reflexivity.
  - cbn [negb andb w_cache w_db w_dest w_trace].
    destruct (cache_Set c1 key encoded (cacheExpire custom)) as [c2 serr] eqn:HS.
    exists c2, serr. split; [reflexivity |].
    destruct serr; cbn; rewrite <- !app_assoc; reflexivity.
Qed.

Lemma query_count_miss_run
      (builder b1 b2 : B) (customs : list Custom) (w : World) (it1 it2 : Interp)
      (c1 c2 : CacheState) (reply encoded : list Byte.byte) (db' : DbState)
      (rows : Rows) (serr : option error) :
  let custom := firstCustom customs in
  let key := cacheKey custom in
  let sql := countWrap (isql it2) in
  let count := if rowsNext rows then rowsScanInt rows else 0%Z in
  isCache custom = true -> isCount custom = true -> key <> "" ->
  encodePlaceholder builder = Ret (b1, it1) -> ierr it1 = None ->
  cache_GetBytes (w_cache w) key = (c1, (reply, false, None)) ->
  encodePlaceholder b1 = Ret (b2, it2) -> ierr it2 = None ->
  QueryContext (w_db w) sql (ivalue it2) = (db', rows, None) ->
  gobEncodeInt count = (encoded, None) ->
  cache_Set c1 key encoded (cacheExpire custom) = (c2, serr) ->
  query builder customs w =
  Ret (b2, count, None,
       {| w_db := db'; w_cache := c2; w_dest := w_dest w;
          w_trace :=
            (w_trace w
               ++ [CacheGet key; DbQuery sql (ivalue it2);
                   CacheSet key encoded (cacheExpire custom)]
               ++ match serr with
                  | Some e => [LogErr "dbr.select.cache.set" e sql]
                  | None => []
                  end
               ++ [LogTiming "dbr.select" sql])%list |}).
Proof.
  intros custom key sql count Hc Hn Hk HB1 Hi1 HG HB2 Hi2 HQ HE HS.
  rewrite (query_cache_miss builder b1 customs w it1 c1 reply Hc Hk HB1 Hi1 HG).
  fold custom key. engine_unfold. rewrite Hn, HB2, Hi2.
  cbn [w_db w_cache w_dest w_trace]. fold sql. rewrite HQ.
  cbn iota beta. fold count. rewrite Hc, HE.
  cbn [negb andb w_cache w_db w_dest w_trace]. rewrite HS.
  destruct serr; cbn; rewrite <- !app_assoc; reflexivity.
Qed.

(** X18: a count stored on a miss is read back on the next call.  After a
    first [query] that missed, counted through the driver and stored the
    encoded count, when the cache hands the stored bytes back and they decode
    into the count that was encoded, a second [query] with the same
    directive returns the same count with a nil error, and sends nothing to
    the driver: the state of the database is the one the first call left. *)
Theorem query_count_round_trip
        (builder b1 b2 b3 : B) (customs : list Custom) (w : World)
        (it1 it2 it3 : Interp) (c1 c2 c3 : CacheState)
        (reply encoded : list Byte.byte) (db' : DbState) (rows : Rows)
        (serr : option error) :
  let custom := firstCustom customs in
  let key := cacheKey custom in
  let count := if rowsNext rows then rowsScanInt rows else 0%Z in
  isCache custom = true -> isCount custom = true -> key <> "" ->
  encodePlaceholder builder = Ret (b1, it1) -> ierr it1 = None ->
  cache_GetBytes (w_cache w) key = (c1, (reply, false, None)) ->
  encodePlaceholder b1 = Ret (b2, it2) -> ierr it2 = None ->
  QueryContext (w_db w) (countWrap (isql it2)) (ivalue it2) = (db', rows, None) ->
  gobEncodeInt count = (encoded, None) ->
  cache_Set c1 key encoded (cacheExpire custom) = (c2, serr) ->
  cache_GetBytes c2 key = (c3, (encoded, true, None)) ->
  gobDecodeInt encoded = inl count ->
  encodePlaceholder b2 = Ret (b3, it3) -> ierr it3 = None ->
  exists w1,
    query builder customs w = Ret (b2, count, None, w1)
    /\ query b2 customs w1 =
       Ret (b3, count, None,
            {| w_db := db'; w_cache := c3; w_dest := w_dest w;
               w_trace := (w_trace w1 ++ [CacheGet key;
                                          LogTiming "dbr.select.cache"
                                                    (countWrap (isql it3))])%list |}).
Proof.
  intros custom key count Hc Hn Hk HB1 Hi1 HG HB2 Hi2 HQ HE HS HG2 HD HB3 Hi3.
  pose proof (query_count_miss_run builder b1 b2 customs w it1 it2 c1 c2 reply encoded
                db' rows serr Hc Hn Hk HB1 Hi1 HG HB2 Hi2 HQ HE HS) as H1.
  match type of H1 with _ = Ret (_, _, _, ?x) => set (w1 := x) in * end.
  exists w1. split; [exact H1 |].
  exact (query_hit_count_run b2 b3 customs w1 it3 c3 encoded count
           Hc Hn Hk HB3 Hi3 HG2 HD).
Qed.

End EngineFurther.

Section LoadThroughCaseUpdate.

Context {DbState Result Rows CacheState Dest : Type}.
Context {runner : Runner DbState Result Rows}.
Context {cache : CustomCache CacheState}.
Context {log : EventReceiver}.
Context {dst : Destination Dest Rows}.
Variable d : Dialect.
Variable interpolate : string -> list iface -> Interp.

Local Abbreviation World := (World DbState CacheState Dest).

(** X19: [LoadContext] on a well-formed statement made by a session or a
    transaction builds one window and sends it through the driver's
    [QueryContext], once: the window is removed from the rows and the other
    rows stay, where Exec would go on; the rows the driver returns are
    loaded into the destination, the cache is not touched, and nil is
    returned. *)
Theorem LoadContext_queries_one_window
        (b : CaseUpdateStmt) (w : World) db' rows dest' n :
  session_bound b ->
  well_formed b -> (0 <= RunLen b)%Z ->
  let it := issued d interpolate b (window (effRunLen b) (Value b)) in
  ierr it = None ->
  QueryContext (w_db w) (isql it) (ivalue it) = (db', rows, None) ->
  Load rows (w_dest w) = (dest', n, None) ->
  CaseUpdateStmt_LoadContext d interpolate b w =
  Ret (set_Value (set_RunLen b (effRunLen b))
                 (skipn (Z.to_nat (effRunLen b)) (Value b)),
       None,
       {| w_db := db'; w_cache := w_cache w; w_dest := dest';
          w_trace := (w_trace w ++ [DbQuery (isql it) (ivalue it);
                                    LogTiming "dbr.select" (isql it)])%list |}).
Proof.
  intros (Hr & He & Hd) Hwf Hk it Hi HQ HL.
  unfold CaseUpdateStmt_LoadContext, query_stmt. rewrite Hr, He.
  unfold query. cbn [firstCustom isCache zeroCustom].
  engine_unfold. cbn [isCount isCache zeroCustom encodePlaceholder caseUpdateBuilder].
  rewrite Hd, (Build_spec _ _ _ Hwf Hk).
  cbn [buf_app buf_str buf_val NewBuffer app]. rewrite !append_nil_l.
  fold (issued d interpolate b (window (effRunLen b) (Value b))). fold it.
  rewrite Hi. cbn [w_db w_cache w_dest w_trace]. rewrite HQ.
  cbn [w_db w_cache w_dest w_trace]. rewrite HL.
  cbn. rewrite <- app_assoc. reflexivity.
Qed.

End LoadThroughCaseUpdate.

Lemma LoadContext_queries_one_window_witness :
  CaseUpdateStmt_LoadContext
    (runner := Example.okRunner) (cache := Example.mapCache)
    (log := NullEventReceiver) (dst := Example.sliceDest)
    backquote Example.plain Example.twoRows (Example.world0 [])
  = Ret (set_Value Example.twoRows [{| Key := "2"; Val := [VStr "y"] |}], None,
         {| w_db := 1; w_cache := []; w_dest := [3%Z];
            w_trace :=
              [DbQuery "UPDATE `t` SET `a` =  CASE `id` WHEN ? THEN ?  END  WHERE `id` IN ( ?  )"
                       [VStr "1"; VStr "x"; VStr "1"];
               LogTiming "dbr.select"
                       "UPDATE `t` SET `a` =  CASE `id` WHEN ? THEN ?  END  WHERE `id` IN ( ?  )"] |}).
Proof.
  rewrite (LoadContext_queries_one_window
             (runner := Example.okRunner) (cache := Example.mapCache)
             (log := NullEventReceiver) (dst := Example.sliceDest)
             backquote Example.plain Example.twoRows (Example.world0 [])
             1 [3%Z] [3%Z] 1%Z twoRows_bound
             twoRows_well_formed ltac:(simpl; lia) eq_refl eq_refl eq_refl).
  reflexivity.
Defined.

Lemma exec_failure_leaves_cache_witness :
  let customs := [{| isCount := false; isCache := true; cacheKey := "users";
                     cacheExpire := 60 |}] in
  exec (runner := Example.okRunner) (cache := Example.mapCache)
       (log := NullEventReceiver) (bld := Example.constBuilder)
       Faulty.unrendered customs
       (Example.world0 [("users", [Byte.x01])])
  = Ret (Faulty.unrendered, None, Some (errors_New "unsupported"),
         {| w_db := 0; w_cache := [("users", [Byte.x01])]; w_dest := [];
            w_trace := [LogErr "dbr.exec.interpolate" (errors_New "unsupported")
                               "SELECT"] |}).
Proof.
  cbv zeta.
  destruct (exec_failure_leaves_cache
              (runner := Example.okRunner) (cache := Example.mapCache)
              (log := NullEventReceiver) (bld := Example.constBuilder)
              Faulty.unrendered Faulty.unrendered
              [{| isCount := false; isCache := true; cacheKey := "users";
                  cacheExpire := 60 |}]
              (Example.world0 [("users", [Byte.x01])])
              Faulty.unrendered eq_refl) as [H _].
  rewrite (H _ eq_refl). reflexivity.
Defined.

Lemma exec_without_cache_key_witness :
  let customs := [{| isCount := false; isCache := true; cacheKey := "";
                     cacheExpire := 60 |}] in
  exec (runner := Example.okRunner) (cache := Example.brokenCache)
       (log := NullEventReceiver) (bld := Example.constBuilder)
       Example.selectUsers customs (Example.world0 tt)
  = Ret (Example.selectUsers, Some 1%Z, None,
         {| w_db := 1; w_cache := tt; w_dest := [];
            w_trace := [DbExec "SELECT * FROM users" [];
                        LogTiming "dbr.exec" "SELECT * FROM users"] |}).
Proof.
  cbv zeta.
  rewrite (exec_without_cache_key
             (runner := Example.okRunner) (cache := Example.brokenCache)
             (log := NullEventReceiver) (bld := Example.constBuilder)
             Example.selectUsers Example.selectUsers
             [{| isCount := false; isCache := true; cacheKey := "";
                 cacheExpire := 60 |}]
             (Example.world0 tt) Example.selectUsers 1 1%Z
             eq_refl eq_refl eq_refl (or_intror eq_refl)).
  reflexivity.
Defined.

Lemma query_without_caching_leaves_cache_witness :
  exists b' n e w',
    query (runner := Example.okRunner) (cache := Example.brokenCache)
          (log := NullEventReceiver) (dst := Example.sliceDest)
          (bld := Example.constBuilder)
          Example.selectUsers [] (Example.world0 tt)
    = Ret (b', n, e, w')
    /\ w_cache w' = tt
    /\ filter is_cache_action (w_trace w') = [].
Proof.
  do 4 eexists. split; [reflexivity |].
  destruct (query_without_caching_leaves_cache
              (runner := Example.okRunner) (cache := Example.brokenCache)
              (log := NullEventReceiver) (dst := Example.sliceDest)
              (bld := Example.constBuilder)
              Example.selectUsers Example.selectUsers [] (Example.world0 tt)
              _ 1%Z None eq_refl eq_refl) as [Hcache _].
  split; [exact Hcache | reflexivity].
Defined.

Lemma query_cache_hit_count_witness :
  let customs := [{| isCount := true; isCache := true; cacheKey := "users.count";
                     cacheExpire := 60 |}] in
  query (runner := Faulty.refusingRunner) (cache := Example.mapCache)
        (log := NullEventReceiver) (dst := Example.sliceDest)
        (bld := Example.constBuilder)
        Example.selectUsers customs
        (Example.world0 [("users.count", [Byte.x01; Byte.x01])])
  = Ret (Example.selectUsers, 2%Z, None,
         {| w_db := 0; w_cache := [("users.count", [Byte.x01; Byte.x01])];
            w_dest := [];
            w_trace := [CacheGet "users.count";
                        LogTiming "dbr.select.cache"
                          "SELECT COUNT(*) FROM (SELECT * FROM users) AS count"] |}).
Proof.
  cbv zeta.
  rewrite (query_cache_hit_count
             (runner := Faulty.refusingRunner) (cache := Example.mapCache)
             (log := NullEventReceiver) (dst := Example.sliceDest)
             (bld := Example.constBuilder)
             Example.selectUsers Example.selectUsers
             [{| isCount := true; isCache := true; cacheKey := "users.count";
                 cacheExpire := 60 |}]
             (Example.world0 [("users.count", [Byte.x01; Byte.x01])])
             Example.selectUsers [("users.count", [Byte.x01; Byte.x01])]
             [Byte.x01; Byte.x01] 2%Z
             eq_refl eq_refl ltac:(discriminate) eq_refl eq_refl eq_refl eq_refl).
  reflexivity.
Defined.

Lemma query_cache_hit_rows_witness :
  let customs := [{| isCount := false; isCache := true; cacheKey := "users";
                     cacheExpire := 60 |}] in
  query (runner := Faulty.refusingRunner) (cache := Example.mapCache)
        (log := NullEventReceiver) (dst := Example.sliceDest)
        (bld := Example.constBuilder)
        Example.selectUsers customs
        (Example.world0 [("users", [Byte.x01; Byte.x01])])
  = Ret (Example.selectUsers, 2%Z, None,
         {| w_db := 0; w_cache := [("users", [Byte.x01; Byte.x01])];
            w_dest := [0%Z; 0%Z];
            w_trace := [CacheGet "users";
                        LogTiming "dbr.select.cache" "SELECT * FROM users"] |}).
Proof.
  cbv zeta.
  rewrite (query_cache_hit_rows
             (runner := Faulty.refusingRunner) (cache := Example.mapCache)
             (log := NullEventReceiver) (dst := Example.sliceDest)
             (bld := Example.constBuilder)
             Example.selectUsers Example.selectUsers
             [{| isCount := false; isCache := true; cacheKey := "users";
                 cacheExpire := 60 |}]
             (Example.world0 [("users", [Byte.x01; Byte.x01])])
             Example.selectUsers [("users", [Byte.x01; Byte.x01])]
             [Byte.x01; Byte.x01] [0%Z; 0%Z]
             eq_refl eq_refl ltac:(discriminate) eq_refl eq_refl eq_refl eq_refl).
  reflexivity.
Defined.

Lemma query_failure_is_not_cached_witness :
  let customs := [{| isCount := true; isCache := true; cacheKey := "users.count";
                     cacheExpire := 60 |}] in
  query (runner := Faulty.refusingRunner) (cache := Example.mapCache)
        (log := NullEventReceiver) (dst := Example.sliceDest)
        (bld := Example.constBuilder)
        Example.selectUsers customs (Example.world0 [])
  = Ret (Example.selectUsers, 0%Z, Some (errors_New "refused"),
         {| w_db := 1; w_cache := []; w_dest := [];
            w_trace :=
              [CacheGet "users.count";
               DbQuery "SELECT COUNT(*) FROM (SELECT * FROM users) AS count" [];
               LogErr "dbr.select.load.query" (errors_New "refused")
                      "SELECT COUNT(*) FROM (SELECT * FROM users) AS count";
               LogErr "dbr.select.load.scan" (errors_New "refused")
                      "SELECT COUNT(*) FROM (SELECT * FROM users) AS count"] |}).
Proof.
  cbv zeta.
  rewrite (query_failure_is_not_cached
             (runner := Faulty.refusingRunner) (cache := Example.mapCache)
             (log := NullEventReceiver) (dst := Example.sliceDest)
             (bld := Example.constBuilder)
             Example.selectUsers Example.selectUsers Example.selectUsers
             [{| isCount := true; isCache := true; cacheKey := "users.count";
                 cacheExpire := 60 |}]
             (Example.world0 []) Example.selectUsers Example.selectUsers
             [] [] 1 [] (errors_New "refused")
             (fun _ _ _ => eq_refl)
             eq_refl ltac:(discriminate) eq_refl eq_refl eq_refl eq_refl eq_refl
             eq_refl).
  reflexivity.
Defined.

Lemma query_rows_miss_caches_destination_witness :
  let customs := [{| isCount := false; isCache := true; cacheKey := "users";
                     cacheExpire := 60 |}] in
  query (runner := Example.okRunner) (cache := Example.mapCache)
        (log := NullEventReceiver) (dst := Example.sliceDest)
        (bld := Example.constBuilder)
        Example.selectUsers customs (Example.world0 [])
  = Ret (Example.selectUsers, 1%Z, None,
         {| w_db := 1; w_cache := [("users", [Byte.x01])]; w_dest := [3%Z];
            w_trace := [CacheGet "users"; DbQuery "SELECT * FROM users" [];
                        CacheSet "users" [Byte.x01] 60;
                        LogTiming "dbr.select" "SELECT * FROM users"] |}).
Proof.
  cbv zeta.
  pose proof (query_rows_miss_caches_destination
                (runner := Example.okRunner) (cache := Example.mapCache)
                (log := NullEventReceiver) (dst := Example.sliceDest)
                (bld := Example.constBuilder)
                Example.selectUsers Example.selectUsers Example.selectUsers
                [{| isCount := false; isCache := true; cacheKey := "users";
                    cacheExpire := 60 |}]
                (Example.world0 []) Example.selectUsers Example.selectUsers
                [] [] 1 [3%Z] [3%Z] 1%Z
                eq_refl eq_refl ltac:(discriminate) eq_refl eq_refl eq_refl
                eq_refl eq_refl eq_refl eq_refl) as H.
  cbn in H. destruct H as (c2 & serr & HS & HQ).
  inversion HS; subst. exact HQ.
Defined.

Lemma query_count_round_trip_witness :
  let customs := [{| isCount := true; isCache := true; cacheKey := "users.count";
                     cacheExpire := 60 |}] in
  exists w1,
    query (runner := Example.okRunner) (cache := Example.mapCache)
          (log := NullEventReceiver) (dst := Example.sliceDest)
          (bld := Example.constBuilder)
          Example.selectUsers customs (Example.world0 [])
    = Ret (Example.selectUsers, 3%Z, None, w1)
    /\ query (runner := Example.okRunner) (cache := Example.mapCache)
             (log := NullEventReceiver) (dst := Example.sliceDest)
             (bld := Example.constBuilder)
             Example.selectUsers customs w1
       = Ret (Example.selectUsers, 3%Z, None,
              {| w_db := 1;
                 w_cache := [("users.count", [Byte.x01; Byte.x01; Byte.x01])];
                 w_dest := [];
                 w_trace :=
                   (w_trace w1
                      ++ [CacheGet "users.count";
                          LogTiming "dbr.select.cache"
                            "SELECT COUNT(*) FROM (SELECT * FROM users) AS count"])%list |}).
Proof.
  cbv zeta.
  exact (query_count_round_trip
           (runner := Example.okRunner) (cache := Example.mapCache)
           (log := NullEventReceiver) (dst := Example.sliceDest)
           (bld := Example.constBuilder)
           Example.selectUsers Example.selectUsers Example.selectUsers
           Example.selectUsers
           [{| isCount := true; isCache := true; cacheKey := "users.count";
               cacheExpire := 60 |}]
           (Example.world0 [])
           Example.selectUsers Example.selectUsers Example.selectUsers
           [] [("users.count", [Byte.x01; Byte.x01; Byte.x01])]
           [("users.count", [Byte.x01; Byte.x01; Byte.x01])]
           [] [Byte.x01; Byte.x01; Byte.x01] 1 [3%Z] None
           eq_refl eq_refl ltac:(discriminate) eq_refl eq_refl eq_refl
           eq_refl eq_refl eq_refl eq_refl eq_refl eq_refl eq_refl eq_refl eq_refl).
Defined.

Section PlainQuery.

Context {DbState Result Rows CacheState Dest B : Type}.
Context {runner : Runner DbState Result Rows}.
Context {cache : CustomCache CacheState}.
Context {log : EventReceiver}.
Context {dst : Destination Dest Rows}.
Context {bld : Builder B}.

Local Abbreviation World := (World DbState CacheState Dest).

(** X20: [query] without caching, once the statement renders and the driver
    accepts it.  For a count it sends the statement wrapped as
    [SELECT COUNT( * ) FROM (<sql>) AS count] and returns the integer scanned
    from the first row, 0 when there is none.  For rows it sends the
    statement as it is and returns the count of [Load]; when [Load] fails it
    returns count 0 with the report of the error, whatever was loaded into
    the destination before. *)
Theorem query_plain (builder b1 : B) (customs : list Custom) (w : World)
        (it : Interp) (db' : DbState) (rows : Rows) :
  let custom := firstCustom customs in
  let sql := if isCount custom then countWrap (isql it) else isql it in
  isCache custom = false ->
  encodePlaceholder builder = Ret (b1, it) -> ierr it = None ->
  QueryContext (w_db w) sql (ivalue it) = (db', rows, None) ->
  query builder customs w =
  if isCount custom then
    Ret (b1, if rowsNext rows then rowsScanInt rows else 0%Z, None,
         {| w_db := db'; w_cache := w_cache w; w_dest := w_dest w;
            w_trace := (w_trace w ++ [DbQuery sql (ivalue it);
                                      LogTiming "dbr.select" sql])%list |})
  else
    match Load rows (w_dest w) with
    | (dest', n, None) =>
        Ret (b1, n, None,
             {| w_db := db'; w_cache := w_cache w; w_dest := dest';
                w_trace := (w_trace w ++ [DbQuery sql (ivalue it);
                                          LogTiming "dbr.select" sql])%list |})
    | (dest', _, Some e) =>
        Ret (b1, 0%Z, EventErrKv "dbr.select.load.scan" e sql,
             {| w_db := db'; w_cache := w_cache w; w_dest := dest';
                w_trace := (w_trace w ++ [DbQuery sql (ivalue it);
                                          LogErr "dbr.select.load.scan" e sql])%list |})
    end.
Proof.
  intros custom sql Hc HB Hi HQ. unfold query. fold custom. rewrite Hc.
  engine_unfold. unfold sql in *. rewrite Hc.
  destruct (isCount custom); rewrite HB, Hi;
    cbn [w_db w_cache w_dest w_trace]; rewrite HQ;
    cbn [w_db w_cache w_dest w_trace andb].
  - rewrite <- app_assoc. reflexivity.
  - destruct (Load rows (w_dest w)) as [[dest' n] [e |]];
      cbn [w_db w_cache w_dest w_trace]; rewrite <- app_assoc; reflexivity.
Qed.

End PlainQuery.

Lemma query_plain_witness :
  query (runner := Example.okRunner) (cache := Example.brokenCache)
        (log := NullEventReceiver) (dst := Example.sliceDest)
        (bld := Example.constBuilder)
        Example.selectUsers [] (Example.world0 tt)
  = Ret (Example.selectUsers, 1%Z, None,
         {| w_db := 1; w_cache := tt; w_dest := [3%Z];
            w_trace := [DbQuery "SELECT * FROM users" [];
                        LogTiming "dbr.select" "SELECT * FROM users"] |}).
Proof.
  rewrite (query_plain
             (runner := Example.okRunner) (cache := Example.brokenCache)
             (log := NullEventReceiver) (dst := Example.sliceDest)
             (bld := Example.constBuilder)
             Example.selectUsers Example.selectUsers [] (Example.world0 tt)
             Example.selectUsers 1 [3%Z] eq_refl eq_refl eq_refl eq_refl).
  reflexivity.
Defined.
